(** * Myonites pose-tracking pipeline: a shallow embedding and its properties

    Embedded sources:
    - [services/pose/drawLandmarks.ts]   (skeleton overlay renderer)
    - [services/pose/pose.web.ts]        (class MediaPipePoseEstimator, the
                                           module the screen imports it from)
    - [services/camera/camera.web.ts]    (camera stream handle)
    - [screens/pose/PosePrototypeScreen.tsx] (frame loop controller)

    Conventions.
    - A JavaScript [number] is a binary64 value; the model carries its
      exact rational value ([Q]).  NaN and the infinities are outside the
      model.  Comparisons are exact.  The arithmetic of the frame-rate
      recurrence, whose stored result depends on the rounding of every
      step, is written with the rounded operations of [Js]; the products
      and sums the renderer hands to the canvas are written exactly.
    - A canvas 2D context is write-only for the embedded code, so drawing
      functions return the list of context operations they issue, in order.
    - [await] is sequencing: the embedding follows one logical caller.
    - A call that can throw returns a [Completion]. *)

From Stdlib Require Import QArith Qround Qpower Qabs Lqa.
From Stdlib Require Import Floats.SpecFloat.
From stdpp Require Import base option list strings pretty.

Local Open Scope Q_scope.

(** ** JavaScript values shared by all modules *)

Module Js.

(** The JS number type. *)
Definition number : Type := Q.

(** [a < b] on numbers, as a boolean. *)
Definition ltb (a b : number) : bool :=
  (Qnum a * QDen b <? Qnum b * QDen a)%Z.

(** [a > b]. *)
Definition gtb (a b : number) : bool := ltb b a.

(** [a === b] on numbers. *)
Definition eqb (a b : number) : bool := Qeq_bool a b.

(** A thrown value: an [Error] instance with its message, or any other
    value, kept as what [String(value)] renders. *)
Inductive Thrown : Type :=
| ErrorObject (message : string)
| NonError (rendered : string).

(** [error instanceof Error ? error.message : String(error)] *)
Definition messageOf (error : Thrown) : string :=
  match error with
  | ErrorObject message => message
  | NonError rendered => rendered
  end.

(** How a call ends. *)
Inductive Completion (A : Type) : Type :=
| Returned (value : A)
| Threw (error : Thrown).
Arguments Returned {A} value.
Arguments Threw {A} error.

(** [Math.round]: nearest integer, halves towards +infinity. *)
Definition round (x : number) : Z := Qfloor (x + (1 # 2)).

(** *** binary64 arithmetic

    An arithmetic operator gives the binary64 value nearest to the exact
    result, ties going to the even significand (IEEE 754
    round-to-nearest-even, the only rounding JavaScript has).  A binary64
    value has 53 significant bits, and its last place weighs at least
    2^-1074.  Where the nearest value would be of magnitude 2^1024 or
    more the machine gives an infinity: [number] has none, and [fl] is the
    machine's rounding only where its result is below that magnitude. *)

(** 2^e *)
Definition pow2 (e : Z) : Q := 2 ^ e.

(** The binary exponent of [x > 0]: the [e] with 2^e <= x < 2^(e+1). *)
Definition exponent (x : Q) : Z :=
  let e := (Z.log2 (Qnum x) - Z.log2 (QDen x))%Z in
  if Qle_bool (pow2 e) x then e else (e - 1)%Z.

(** The weight of the last place of the binary64 values around [x > 0]. *)
Definition ulp (x : Q) : Q := pow2 (Z.max (exponent x - 52) (-1074)).

(** Nearest integer, ties to even. *)
Definition roundEven (x : Q) : Z :=
  let k := Qfloor x in
  match Qcompare (x - inject_Z k) (1 # 2) with
  | Lt => k
  | Gt => (k + 1)%Z
  | Eq => if Z.even k then k else (k + 1)%Z
  end.

(** The binary64 value nearest to [x > 0]. *)
Definition nearest (x : Q) : Q :=
  Qred (inject_Z (roundEven (x / ulp x)) * ulp x).

(** The binary64 value nearest to [x]. *)
Definition fl (x : Q) : number :=
  match Qcompare x 0 with
  | Eq => 0
  | Gt => nearest x
  | Lt => - nearest (- x)
  end.

(** A decimal literal of the source text denotes the nearest binary64
    value. *)
Definition literal (x : Q) : number := fl x.

(** [a + b], [a - b], [a * b], [a / b] *)
Definition add (a b : number) : number := fl (a + b).
Definition sub (a b : number) : number := fl (a - b).
Definition mul (a b : number) : number := fl (a * b).
Definition div (a b : number) : number := fl (a / b).

(** *** Method bodies

    A body runs on a mutable state [S] (the fields of [this], or the refs
    of a component), may throw, and performs external effects of type [E]
    (calls into the browser or the inference engine), returned in the
    order they happen. *)
Definition Run (E S A : Type) : Type := S -> Completion A * S * list E.

Section Run.
Context {E S : Type}.

#[export] Instance run_ret : MRet (Run E S) :=
  fun A (a : A) s => (Returned a, s, []).

#[export] Instance run_bind : MBind (Run E S) :=
  fun A B (k : A -> Run E S B) (m : Run E S A) s =>
    match m s with
    | (Returned a, s1, log1) =>
        match k a s1 with
        | (r, s2, log2) => (r, s2, log1 ++ log2)
        end
    | (Threw error, s1, log1) => (Threw error, s1, log1)
    end.

(** [throw error] *)
Definition throw {A : Type} (error : Thrown) : Run E S A :=
  fun s => (Threw error, s, []).

(** [try { body } catch (error) { handler }] *)
Definition tryCatch {A : Type} (body : Run E S A)
    (handler : Thrown -> Run E S A) : Run E S A :=
  fun s =>
    match body s with
    | (Returned a, s1, log1) => (Returned a, s1, log1)
    | (Threw error, s1, log1) =>
        match handler error s1 with
        | (r, s2, log2) => (r, s2, log1 ++ log2)
        end
    end.

(** Read the state. *)
Definition get : Run E S S := fun s => (Returned s, s, []).

(** Assign to the state. *)
Definition modify (f : S -> S) : Run E S unit :=
  fun s => (Returned tt, f s, []).

(** Perform one external effect. *)
Definition emit (effect : E) : Run E S unit :=
  fun s => (Returned tt, s, [effect]).

(** Perform several external effects in order. *)
Definition emitAll (effects : list E) : Run E S unit :=
  fun s => (Returned tt, s, effects).

(** [await promise] / a call into a collaborator that returns or throws. *)
Definition await {A : Type} (outcome : Completion A) : Run E S A :=
  fun s => (outcome, s, []).

End Run.

(** Unfolds the combinators of a run, up to the first call whose
    completion is not known. *)
Ltac run_unfold :=
  cbv beta iota zeta
      delta [mbind mret run_bind run_ret throw tryCatch get modify emit
             emitAll await];
  cbn [app].

(** Projections of a finished run. *)
Definition outcome {A S E : Type} (r : Completion A * S * list E) : Completion A := r.1.1.
Definition final {A S E : Type} (r : Completion A * S * list E) : S := r.1.2.
Definition effects {A S E : Type} (r : Completion A * S * list E) : list E := r.2.

End Js.

Import Js.

(** ** @myonites/shared: pose types *)

Module Shared.

(** [interface Landmark] *)
Record Landmark : Type := mkLandmark {
  lx : number;
  ly : number;
  lz : number;
  lvisibility : number;
}.

(** [interface PoseLandmarks] *)
Record PoseLandmarks : Type := mkPoseLandmarks {
  landmarks : list Landmark;
  timestamp : number;
}.

(** [LANDMARK_INDEX] *)
Module LANDMARK_INDEX.
Definition NOSE : nat := 0.
Definition LEFT_EYE_INNER : nat := 1.
Definition LEFT_EYE : nat := 2.
Definition LEFT_EYE_OUTER : nat := 3.
Definition RIGHT_EYE_INNER : nat := 4.
Definition RIGHT_EYE : nat := 5.
Definition RIGHT_EYE_OUTER : nat := 6.
Definition LEFT_EAR : nat := 7.
Definition RIGHT_EAR : nat := 8.
Definition MOUTH_LEFT : nat := 9.
Definition MOUTH_RIGHT : nat := 10.
Definition LEFT_SHOULDER : nat := 11.
Definition RIGHT_SHOULDER : nat := 12.
Definition LEFT_ELBOW : nat := 13.
Definition RIGHT_ELBOW : nat := 14.
Definition LEFT_WRIST : nat := 15.
Definition RIGHT_WRIST : nat := 16.
Definition LEFT_PINKY : nat := 17.
Definition RIGHT_PINKY : nat := 18.
Definition LEFT_INDEX : nat := 19.
Definition RIGHT_INDEX : nat := 20.
Definition LEFT_THUMB : nat := 21.
Definition RIGHT_THUMB : nat := 22.
Definition LEFT_HIP : nat := 23.
Definition RIGHT_HIP : nat := 24.
Definition LEFT_KNEE : nat := 25.
Definition RIGHT_KNEE : nat := 26.
Definition LEFT_ANKLE : nat := 27.
Definition RIGHT_ANKLE : nat := 28.
Definition LEFT_HEEL : nat := 29.
Definition RIGHT_HEEL : nat := 30.
Definition LEFT_FOOT_INDEX : nat := 31.
Definition RIGHT_FOOT_INDEX : nat := 32.
End LANDMARK_INDEX.

End Shared.

(** ** The canvas 2D context, as the operations issued on it *)

Module Canvas.

(** [ctx.canvas]: the pixel size of the drawing surface. *)
Record Surface : Type := mkSurface {
  width : number;
  height : number;
}.

(** One call or property write on a [CanvasRenderingContext2D].
    [Arc x y r] is [ctx.arc(x, y, r, 0, 2 * Math.PI)]: both arcs of the
    source are full circles. *)
Inductive Op : Type :=
| ClearRect (x y w h : number)
| SetStrokeStyle (style : string)
| SetLineWidth (w : number)
| SetLineCap (cap : string)
| BeginPath
| MoveTo (x y : number)
| LineTo (x y : number)
| Stroke
| Arc (x y r : number)
| SetFillStyle (style : string)
| Fill
| Save
| Scale (sx sy : number)
| FillRect (x y w h : number)
| SetFont (font : string)
| FillText (text : string) (x y : number)
| Restore.

Definition isArc (op : Op) : bool :=
  match op with Arc _ _ _ => true | _ => false end.

Definition isStroke (op : Op) : bool :=
  match op with Stroke => true | _ => false end.

End Canvas.

Import Canvas.

(** ** services/pose/drawLandmarks.ts *)

Module DrawLandmarks.

Import Shared.

(** [interface DrawConfig] *)
Record DrawConfig : Type := mkDrawConfig {
  landmarkRadius : number;
  connectionLineWidth : number;
  highConfidenceColor : string;
  mediumConfidenceColor : string;
  lowConfidenceColor : string;
  connectionColor : string;
  visibilityThreshold : number;
}.

(** [Partial<DrawConfig>]: every key may be absent. *)
Record PartialDrawConfig : Type := mkPartialDrawConfig {
  landmarkRadius' : option number;
  connectionLineWidth' : option number;
  highConfidenceColor' : option string;
  mediumConfidenceColor' : option string;
  lowConfidenceColor' : option string;
  connectionColor' : option string;
  visibilityThreshold' : option number;
}.

(** The default value [{}] of the [config] parameter. *)
Definition noOverrides : PartialDrawConfig :=
  mkPartialDrawConfig None None None None None None None.

Definition DEFAULT_DRAW_CONFIG : DrawConfig := {|
  landmarkRadius := 6;
  connectionLineWidth := 3;
  highConfidenceColor := "#22c55e";
  mediumConfidenceColor := "#eab308";
  lowConfidenceColor := "#ef4444";
  connectionColor := "rgba(255, 255, 255, 0.6)";
  visibilityThreshold := 0.3;
|}.

(** [{ ...base, ...config }] *)
Definition spread (base : DrawConfig) (config : PartialDrawConfig) : DrawConfig := {|
  landmarkRadius := default (landmarkRadius base) (landmarkRadius' config);
  connectionLineWidth := default (connectionLineWidth base) (connectionLineWidth' config);
  highConfidenceColor := default (highConfidenceColor base) (highConfidenceColor' config);
  mediumConfidenceColor := default (mediumConfidenceColor base) (mediumConfidenceColor' config);
  lowConfidenceColor := default (lowConfidenceColor base) (lowConfidenceColor' config);
  connectionColor := default (connectionColor base) (connectionColor' config);
  visibilityThreshold := default (visibilityThreshold base) (visibilityThreshold' config);
|}.

Definition SKELETON_CONNECTIONS : list (nat * nat) :=
  [ (LANDMARK_INDEX.LEFT_SHOULDER, LANDMARK_INDEX.RIGHT_SHOULDER);
    (LANDMARK_INDEX.LEFT_SHOULDER, LANDMARK_INDEX.LEFT_HIP);
    (LANDMARK_INDEX.RIGHT_SHOULDER, LANDMARK_INDEX.RIGHT_HIP);
    (LANDMARK_INDEX.LEFT_HIP, LANDMARK_INDEX.RIGHT_HIP);
    (LANDMARK_INDEX.LEFT_SHOULDER, LANDMARK_INDEX.LEFT_ELBOW);
    (LANDMARK_INDEX.LEFT_ELBOW, LANDMARK_INDEX.LEFT_WRIST);
    (LANDMARK_INDEX.RIGHT_SHOULDER, LANDMARK_INDEX.RIGHT_ELBOW);
    (LANDMARK_INDEX.RIGHT_ELBOW, LANDMARK_INDEX.RIGHT_WRIST);
    (LANDMARK_INDEX.LEFT_HIP, LANDMARK_INDEX.LEFT_KNEE);
    (LANDMARK_INDEX.LEFT_KNEE, LANDMARK_INDEX.LEFT_ANKLE);
    (LANDMARK_INDEX.RIGHT_HIP, LANDMARK_INDEX.RIGHT_KNEE);
    (LANDMARK_INDEX.RIGHT_KNEE, LANDMARK_INDEX.RIGHT_ANKLE);
    (LANDMARK_INDEX.LEFT_ANKLE, LANDMARK_INDEX.LEFT_HEEL);
    (LANDMARK_INDEX.LEFT_HEEL, LANDMARK_INDEX.LEFT_FOOT_INDEX);
    (LANDMARK_INDEX.LEFT_ANKLE, LANDMARK_INDEX.LEFT_FOOT_INDEX);
    (LANDMARK_INDEX.RIGHT_ANKLE, LANDMARK_INDEX.RIGHT_HEEL);
    (LANDMARK_INDEX.RIGHT_HEEL, LANDMARK_INDEX.RIGHT_FOOT_INDEX);
    (LANDMARK_INDEX.RIGHT_ANKLE, LANDMARK_INDEX.RIGHT_FOOT_INDEX);
    (LANDMARK_INDEX.LEFT_EAR, LANDMARK_INDEX.LEFT_EYE);
    (LANDMARK_INDEX.LEFT_EYE, LANDMARK_INDEX.NOSE);
    (LANDMARK_INDEX.NOSE, LANDMARK_INDEX.RIGHT_EYE);
    (LANDMARK_INDEX.RIGHT_EYE, LANDMARK_INDEX.RIGHT_EAR) ].

Definition getConfidenceColor (visibility : number) (config : DrawConfig) : string :=
  if gtb visibility 0.7 then highConfidenceColor config
  else if gtb visibility 0.4 then mediumConfidenceColor config
  else lowConfidenceColor config.

(** An element of the [normalizedLandmarks] argument:
    [{ x: number; y: number; visibility?: number }]. *)
Record NormalizedLandmark : Type := mkNormalizedLandmark {
  x : number;
  y : number;
  visibility : option number;
}.

(** The [{ x, y }] pair the mapping returns. *)
Record Point : Type := mkPoint {
  px : number;
  py : number;
}.

Definition toCanvasCoords (landmark : NormalizedLandmark)
    (canvasWidth canvasHeight : number) : Point := {|
  px := x landmark * canvasWidth;
  py := y landmark * canvasHeight;
|}.

(** [array[i]] on an array whose elements may be [undefined]: out of
    range and a hole both read as [undefined] ([None]). *)
Definition elementAt {A : Type} (array : list (option A)) (i : nat) : option A :=
  mjoin (array !! i).

(** Body of the loop over [SKELETON_CONNECTIONS] (one iteration). *)
Definition drawConnection (finalConfig : DrawConfig) (width height : number)
    (normalizedLandmarks : list (option NormalizedLandmark))
    (connection : nat * nat) : list Op :=
  let '(startIdx, endIdx) := connection in
  match elementAt normalizedLandmarks startIdx,
        elementAt normalizedLandmarks endIdx with
  | Some startLandmark, Some endLandmark =>
      let startVisibility := default 0 (visibility startLandmark) in
      let endVisibility := default 0 (visibility endLandmark) in
      if ltb startVisibility (visibilityThreshold finalConfig)
         || ltb endVisibility (visibilityThreshold finalConfig)
      then []
      else
        let start := toCanvasCoords startLandmark width height in
        let end_ := toCanvasCoords endLandmark width height in
        [ BeginPath; MoveTo (px start) (py start);
          LineTo (px end_) (py end_); Stroke ]
  | _, _ => []
  end.

(** Body of the loop over the landmark array (one iteration). *)
Definition drawLandmark (finalConfig : DrawConfig) (width height : number)
    (element : option NormalizedLandmark) : list Op :=
  match element with
  | None => []
  | Some landmark =>
      let visibility := default 0 (visibility landmark) in
      if ltb visibility (visibilityThreshold finalConfig) then []
      else
        let pos := toCanvasCoords landmark width height in
        [ BeginPath;
          Arc (px pos) (py pos) (landmarkRadius finalConfig + 1);
          SetFillStyle "white"; Fill;
          BeginPath;
          Arc (px pos) (py pos) (landmarkRadius finalConfig);
          SetFillStyle (getConfidenceColor visibility finalConfig); Fill ]
  end.

(** [drawSkeleton(ctx, normalizedLandmarks, config = {})]; the result is
    every operation issued on [ctx], first to last. *)
Definition drawSkeleton (ctx : Surface)
    (normalizedLandmarks : option (list (option NormalizedLandmark)))
    (config : PartialDrawConfig) : list Op :=
  let finalConfig := spread DEFAULT_DRAW_CONFIG config in
  let width := width ctx in
  let height := height ctx in
  ClearRect 0 0 width height ::
  match normalizedLandmarks with
  | None => []
  | Some normalizedLandmarks =>
      if (length normalizedLandmarks =? 0)%nat then []
      else
        [ SetStrokeStyle (connectionColor finalConfig);
          SetLineWidth (connectionLineWidth finalConfig);
          SetLineCap "round" ]
        ++ flat_map (drawConnection finalConfig width height normalizedLandmarks)
             SKELETON_CONNECTIONS
        ++ flat_map (drawLandmark finalConfig width height) normalizedLandmarks
  end.

Definition drawFPS (fps : number) : list Op :=
  let roundedFps := round fps in
  let color :=
    if (15 <=? roundedFps)%Z then "#22c55e"
    else if (10 <=? roundedFps)%Z then "#eab308"
    else "#ef4444" in
  [ Save; Scale (-1) 1;
    SetFillStyle "rgba(0, 0, 0, 0.5)"; FillRect (-98) 8 90 32;
    SetFillStyle color; SetFont "bold 16px monospace";
    FillText (pretty roundedFps +:+ " FPS") (-90) 30;
    Restore ].

End DrawLandmarks.

(** ** DOM objects the pipeline touches *)

Module Dom.

(** [HTMLVideoElement]: the live pixel size, and whether the element is
    attached to a parent ([parentNode] is non-null). *)
Record HTMLVideoElement : Type := mkVideo {
  videoWidth : number;
  videoHeight : number;
  parentNode : bool;
}.

(** [HTMLCanvasElement]: its pixel size, and whether [getContext("2d")]
    yields a context. *)
Record HTMLCanvasElement : Type := mkCanvas {
  canvasWidth : number;
  canvasHeight : number;
  context2d : bool;
}.

End Dom.

(** ** services/pose/pose.web.ts *)

Module PoseWeb.

Import Shared Dom.

(** *** The MediaPipe engine (an external collaborator) *)

(** A landmark as the engine reports it: [visibility] may be absent. *)
Record EngineLandmark : Type := mkEngineLandmark {
  ex : number;
  ey : number;
  ez : number;
  evisibility : option number;
}.

(** One landmark array per detected pose; the array of poses, or one of
    its entries, may be missing. *)
Definition EnginePoses : Type := option (list (option (list EngineLandmark))).

(** [PoseLandmarkerResult] *)
Record PoseLandmarkerResult : Type := mkResult {
  resultLandmarks : EnginePoses;
  resultWorldLandmarks : EnginePoses;
}.

(** A loaded [PoseLandmarker]: [detectForVideo] returns a result or
    throws, and so does [close()].  That [close()] was called on the
    engine is the effect [LandmarkerClose handle]. *)
Record PoseLandmarker : Type := mkLandmarker {
  handle : nat;
  detectForVideo : HTMLVideoElement -> number -> Completion PoseLandmarkerResult;
  close : Completion unit;
}.

Inductive EngineEffect : Type :=
| LandmarkerClose (handle : nat).

Inductive Delegate : Type := GPU | CPU.

(** [interface PoseEstimatorConfig] *)
Record PoseEstimatorConfig : Type := mkConfig {
  delegate : Delegate;
  numPoses : number;
  minDetectionConfidence : number;
  minTrackingConfidence : number;
  minPresenceConfidence : number;
}.

Record PartialPoseEstimatorConfig : Type := mkPartialConfig {
  delegate' : option Delegate;
  numPoses' : option number;
  minDetectionConfidence' : option number;
  minTrackingConfidence' : option number;
  minPresenceConfidence' : option number;
}.

Definition DEFAULT_CONFIG : PoseEstimatorConfig := {|
  delegate := GPU;
  numPoses := 1;
  minDetectionConfidence := 0.5;
  minTrackingConfidence := 0.5;
  minPresenceConfidence := 0.5;
|}.

(** [{ ...base, ...config }] *)
Definition spread (base : PoseEstimatorConfig)
    (config : PartialPoseEstimatorConfig) : PoseEstimatorConfig := {|
  delegate := default (delegate base) (delegate' config);
  numPoses := default (numPoses base) (numPoses' config);
  minDetectionConfidence :=
    default (minDetectionConfidence base) (minDetectionConfidence' config);
  minTrackingConfidence :=
    default (minTrackingConfidence base) (minTrackingConfidence' config);
  minPresenceConfidence :=
    default (minPresenceConfidence base) (minPresenceConfidence' config);
|}.

(** The options object handed to [PoseLandmarker.createFromOptions]. *)
Record PoseLandmarkerOptions : Type := mkOptions {
  modelAssetPath : string;
  optDelegate : Delegate;
  runningMode : string;
  optNumPoses : number;
  minPoseDetectionConfidence : number;
  optMinTrackingConfidence : number;
  minPosePresenceConfidence : number;
}.

(** The resolved WASM fileset (opaque to the estimator). *)
Inductive WasmFileset : Type := VisionFileset (token : nat).

(** The two loading calls of [init()]: each resolves or rejects. *)
Record Loader : Type := mkLoader {
  forVisionTasks : string -> Completion WasmFileset;
  createFromOptions :
    WasmFileset -> PoseLandmarkerOptions -> Completion PoseLandmarker;
}.

(** *** The estimator *)

Inductive EstimatorState : Type := uninitialized | loading | ready | disposed.

#[export] Instance EstimatorState_eq_dec : EqDecision EstimatorState.
Proof. solve_decision. Defined.

(** The private fields of [class MediaPipePoseEstimator]. *)
Record MediaPipePoseEstimator : Type := mkEstimator {
  landmarker : option PoseLandmarker;
  state : EstimatorState;
  config : PoseEstimatorConfig;
}.

(** [new MediaPipePoseEstimator(config)] *)
Definition new (config : PartialPoseEstimatorConfig) : MediaPipePoseEstimator := {|
  landmarker := None;
  state := uninitialized;
  config := spread DEFAULT_CONFIG config;
|}.

(** A method of the class: runs on [this]. *)
Definition Method (A : Type) : Type := Run EngineEffect MediaPipePoseEstimator A.

(** [this.state = s] *)
Definition setState (s : EstimatorState) : Method unit :=
  modify (fun this => mkEstimator (landmarker this) s (config this)).

(** [this.landmarker = l] *)
Definition setLandmarker (l : option PoseLandmarker) : Method unit :=
  modify (fun this => mkEstimator l (state this) (config this)).

(** An element of [PoseResult.normalizedLandmarks]:
    [{ x: number; y: number; visibility: number }]. *)
Record ImageLandmark : Type := mkImageLandmark {
  ix : number;
  iy : number;
  ivisibility : number;
}.

(** [interface PoseResult] *)
Record PoseResult : Type := mkPoseResult {
  worldLandmarks : PoseLandmarks;
  normalizedLandmarks : list ImageLandmark;
}.

(** The CDN path given to [FilesetResolver.forVisionTasks]. *)
Definition WASM_PATH : string :=
  "https://cdn.jsdelivr.net/npm/@mediapipe/tasks-vision@latest/wasm".

(** The options object built from [this.config]. *)
Definition landmarkerOptions (config : PoseEstimatorConfig)
    : PoseLandmarkerOptions := {|
  modelAssetPath :=
    "https://storage.googleapis.com/mediapipe-models/pose_landmarker/pose_landmarker_lite/float16/latest/pose_landmarker_lite.task";
  optDelegate := delegate config;
  runningMode := "VIDEO";
  optNumPoses := numPoses config;
  minPoseDetectionConfidence := minDetectionConfidence config;
  optMinTrackingConfidence := minTrackingConfidence config;
  minPosePresenceConfidence := minPresenceConfidence config;
|}.

Definition init (loader : Loader) : Method unit :=
  this ← get;
  match state this with
  | disposed =>
      throw (ErrorObject
        "Cannot initialize a disposed PoseEstimator. Create a new instance instead.")
  | loading | ready => mret tt
  | uninitialized =>
      setState loading;;
      tryCatch
        (vision ← await (forVisionTasks loader WASM_PATH);
         created ← await (createFromOptions loader vision
                            (landmarkerOptions (config this)));
         setLandmarker (Some created);;
         setState ready)
        (fun error =>
           setState uninitialized;;
           throw (ErrorObject
             ("Failed to initialize MediaPipe PoseEstimator: " +:+ messageOf error)))
  end.

(** [!poses || poses.length === 0 || !poses[0] || poses[0].length === 0]
    is false: the first pose, when it is there and non-empty. *)
Definition firstPose (poses : EnginePoses) : option (list EngineLandmark) :=
  match poses with
  | None => None
  | Some [] => None
  | Some (None :: _) => None
  | Some (Some [] :: _) => None
  | Some (Some first :: _) => Some first
  end.

Definition detectPose (videoElement : HTMLVideoElement) (timestampMs : number)
    : Method (option PoseResult) :=
  this ← get;
  match bool_decide (state this ≠ ready), landmarker this with
  | true, _ | _, None => mret None
  | false, Some engine =>
      if eqb (videoWidth videoElement) 0 || eqb (videoHeight videoElement) 0
      then mret None
      else
        result ← await (detectForVideo engine videoElement timestampMs);
        match firstPose (resultWorldLandmarks result),
              firstPose (resultLandmarks result) with
        | Some world, Some normalized =>
            let worldLandmarksMapped :=
              map (fun lm => {| lx := ex lm; ly := ey lm; lz := ez lm;
                                lvisibility := default 0 (evisibility lm) |})
                  world in
            let normalizedLandmarks :=
              map (fun lm => {| ix := ex lm; iy := ey lm;
                                ivisibility := default 0 (evisibility lm) |})
                  normalized in
            mret (Some {|
              worldLandmarks := {| landmarks := worldLandmarksMapped;
                                   timestamp := timestampMs |};
              normalizedLandmarks := normalizedLandmarks;
            |})
        | _, _ => mret None
        end
  end.

Definition isReady (this : MediaPipePoseEstimator) : bool :=
  bool_decide (state this = ready).

Definition getState (this : MediaPipePoseEstimator) : EstimatorState :=
  state this.

Definition dispose : Method unit :=
  this ← get;
  match landmarker this with
  | Some engine =>
      emit (LandmarkerClose (handle engine));;
      await (close engine);;
      setLandmarker None
  | None => mret tt
  end;;
  setState disposed.

End PoseWeb.

(** ** services/camera/camera.web.ts *)

Module CameraWeb.

Import Dom.

Inductive FacingMode : Type := user | environment.

(** [interface CameraConfig] *)
Record CameraConfig : Type := mkCameraConfig {
  width : number;
  height : number;
  facingMode : FacingMode;
}.

Record PartialCameraConfig : Type := mkPartialCameraConfig {
  width' : option number;
  height' : option number;
  facingMode' : option FacingMode;
}.

Definition DEFAULT_CONFIG : CameraConfig := {|
  width := 640;
  height := 480;
  facingMode := user;
|}.

(** [{ ...base, ...config }] *)
Definition spread (base : CameraConfig) (config : PartialCameraConfig)
    : CameraConfig := {|
  width := default (width base) (width' config);
  height := default (height base) (height' config);
  facingMode := default (facingMode base) (facingMode' config);
|}.

(** The constraints passed to [getUserMedia] ([audio] is always false). *)
Record Constraints : Type := mkConstraints {
  idealWidth : number;
  idealHeight : number;
  constraintFacingMode : FacingMode;
}.

(** A [MediaStream]: its hardware tracks, by identifier. *)
Record MediaStream : Type := mkStream {
  getTracks : list nat;
}.

(** [interface CameraStream]; [stop] is the function below, which closes
    over these two fields. *)
Record CameraStream : Type := mkCameraStream {
  videoElement : HTMLVideoElement;
  stream : MediaStream;
}.

(** What releasing the camera does to the hardware and to the element. *)
Inductive CameraEffect : Type :=
| TrackStop (track : nat)
| VideoPause
| VideoClearSrcObject.

(** [camera.stop()] *)
Definition stop (camera : CameraStream) : list CameraEffect :=
  map TrackStop (getTracks (stream camera))
  ++ [VideoPause; VideoClearSrcObject].

(** [startCamera(config)].  [getUserMedia] resolves with a stream or
    rejects; [firstFrame] is the detached video element as it is once
    [loadeddata] has fired. *)
Definition startCamera
    (getUserMedia : Constraints -> Completion MediaStream)
    (firstFrame : MediaStream -> HTMLVideoElement)
    (config : PartialCameraConfig) : Completion CameraStream :=
  let finalConfig := spread DEFAULT_CONFIG config in
  match getUserMedia {| idealWidth := width finalConfig;
                        idealHeight := height finalConfig;
                        constraintFacingMode := facingMode finalConfig |} with
  | Threw error => Threw error
  | Returned stream =>
      Returned {| videoElement := firstFrame stream; stream := stream |}
  end.

(** [navigator.mediaDevices], when defined: is [getUserMedia] a function? *)
Record MediaDevices : Type := mkMediaDevices {
  getUserMediaIsFunction : bool;
}.

(** The global [navigator], when defined. *)
Record Navigator : Type := mkNavigator {
  mediaDevices : option MediaDevices;
}.

Definition isCameraSupported (navigator : option Navigator) : bool :=
  match navigator with
  | None => false
  | Some navigator =>
      match mediaDevices navigator with
      | None => false
      | Some devices => getUserMediaIsFunction devices
      end
  end.

End CameraWeb.

(** ** screens/pose/PosePrototypeScreen.tsx *)

Module PosePrototypeScreen.

Import Dom.

Inductive ScreenState : Type := idle | loading | running | error.

(** The refs and the React state of one mounted component.
    [stopCameraRef] holds the closure [camera.stop], kept as the camera
    stream it closes over; [containerRef] is whether the container is
    mounted.  The video element is one object, reachable from [videoRef]
    and from the camera stream: the component reads and writes its
    attachment through [videoRef] only, and [camera.stop()] writes
    properties that nothing here reads back, so the element inside the
    stream is never consulted. *)
Record Component : Type := mkComponent {
  videoRef : option HTMLVideoElement;
  canvasRef : option HTMLCanvasElement;
  containerRef : bool;
  estimatorRef : option PoseWeb.MediaPipePoseEstimator;
  stopCameraRef : option CameraWeb.CameraStream;
  animationFrameRef : option nat;
  lastFrameTimeRef : number;
  fpsRef : number;
  screenState : ScreenState;
  errorMessage : string;
  displayFps : Z;
}.

(** Everything the component does to the outside, in order. *)
Inductive Effect : Type :=
| CancelAnimationFrame (id : nat)
| RequestAnimationFrame (id : nat)
| Engine (effect : PoseWeb.EngineEffect)
| Camera (effect : CameraWeb.CameraEffect)
| InsertVideoBeforeCanvas
| RemoveVideoFromParent
| Draw (op : Canvas.Op)
| SetScreenState (s : ScreenState)
| SetErrorMessage (message : string)
| SetDisplayFps (fps : Z).

Definition Handler (A : Type) : Type := Run Effect Component A.

(** *** Field assignments *)

Definition set_videoRef (v : option HTMLVideoElement) (c : Component) : Component :=
  mkComponent v (canvasRef c) (containerRef c) (estimatorRef c) (stopCameraRef c)
    (animationFrameRef c) (lastFrameTimeRef c) (fpsRef c) (screenState c)
    (errorMessage c) (displayFps c).

Definition set_canvasRef (v : option HTMLCanvasElement) (c : Component) : Component :=
  mkComponent (videoRef c) v (containerRef c) (estimatorRef c) (stopCameraRef c)
    (animationFrameRef c) (lastFrameTimeRef c) (fpsRef c) (screenState c)
    (errorMessage c) (displayFps c).

Definition set_estimatorRef (v : option PoseWeb.MediaPipePoseEstimator)
    (c : Component) : Component :=
  mkComponent (videoRef c) (canvasRef c) (containerRef c) v (stopCameraRef c)
    (animationFrameRef c) (lastFrameTimeRef c) (fpsRef c) (screenState c)
    (errorMessage c) (displayFps c).

Definition set_stopCameraRef (v : option CameraWeb.CameraStream)
    (c : Component) : Component :=
  mkComponent (videoRef c) (canvasRef c) (containerRef c) (estimatorRef c) v
    (animationFrameRef c) (lastFrameTimeRef c) (fpsRef c) (screenState c)
    (errorMessage c) (displayFps c).

Definition set_animationFrameRef (v : option nat) (c : Component) : Component :=
  mkComponent (videoRef c) (canvasRef c) (containerRef c) (estimatorRef c)
    (stopCameraRef c) v (lastFrameTimeRef c) (fpsRef c) (screenState c)
    (errorMessage c) (displayFps c).

Definition set_lastFrameTimeRef (v : number) (c : Component) : Component :=
  mkComponent (videoRef c) (canvasRef c) (containerRef c) (estimatorRef c)
    (stopCameraRef c) (animationFrameRef c) v (fpsRef c) (screenState c)
    (errorMessage c) (displayFps c).

Definition set_fpsRef (v : number) (c : Component) : Component :=
  mkComponent (videoRef c) (canvasRef c) (containerRef c) (estimatorRef c)
    (stopCameraRef c) (animationFrameRef c) (lastFrameTimeRef c) v (screenState c)
    (errorMessage c) (displayFps c).

(** [setScreenState(s)] *)
Definition setScreenState (s : ScreenState) : Handler unit :=
  emit (SetScreenState s);;
  modify (fun c =>
    mkComponent (videoRef c) (canvasRef c) (containerRef c) (estimatorRef c)
      (stopCameraRef c) (animationFrameRef c) (lastFrameTimeRef c) (fpsRef c) s
      (errorMessage c) (displayFps c)).

(** [setErrorMessage(message)] *)
Definition setErrorMessage (message : string) : Handler unit :=
  emit (SetErrorMessage message);;
  modify (fun c =>
    mkComponent (videoRef c) (canvasRef c) (containerRef c) (estimatorRef c)
      (stopCameraRef c) (animationFrameRef c) (lastFrameTimeRef c) (fpsRef c)
      (screenState c) message (displayFps c)).

(** [setDisplayFps(fps)] *)
Definition setDisplayFps (fps : Z) : Handler unit :=
  emit (SetDisplayFps fps);;
  modify (fun c =>
    mkComponent (videoRef c) (canvasRef c) (containerRef c) (estimatorRef c)
      (stopCameraRef c) (animationFrameRef c) (lastFrameTimeRef c) (fpsRef c)
      (screenState c) (errorMessage c) fps).

(** A method call on an estimator object: its engine effects become
    effects of the component; the object after the call is returned with
    the result. *)
Definition invoke {A : Type} (method : PoseWeb.Method A)
    (this : PoseWeb.MediaPipePoseEstimator)
    : Handler (A * PoseWeb.MediaPipePoseEstimator) :=
  fun c =>
    match method this with
    | (Returned a, this', log) => (Returned (a, this'), c, map Engine log)
    | (Threw thrown, _, log) => (Threw thrown, c, map Engine log)
    end.

(** *** cleanup *)

Definition cleanup : Handler unit :=
  c ← get;
  match animationFrameRef c with
  | Some id =>
      emit (CancelAnimationFrame id);;
      modify (set_animationFrameRef None)
  | None => mret tt
  end;;
  c ← get;
  match estimatorRef c with
  | Some estimator =>
      invoke PoseWeb.dispose estimator;;
      modify (set_estimatorRef None)
  | None => mret tt
  end;;
  c ← get;
  match stopCameraRef c with
  | Some camera =>
      emitAll (map Camera (CameraWeb.stop camera));;
      modify (set_stopCameraRef None)
  | None => mret tt
  end;;
  c ← get;
  match videoRef c with
  | Some video =>
      if parentNode video then
        emit RemoveVideoFromParent;;
        modify (set_videoRef None)
      else mret tt
  | None => mret tt
  end;;
  c ← get;
  match canvasRef c with
  | Some canvas =>
      if context2d canvas then
        emit (Draw (ClearRect 0 0 (canvasWidth canvas) (canvasHeight canvas)))
      else mret tt
  | None => mret tt
  end.

(** *** The browser and the network, as one session sees them *)

Record Env : Type := mkEnv {
  navigator : option CameraWeb.Navigator;
  getUserMedia : CameraWeb.Constraints -> Completion CameraWeb.MediaStream;
  firstFrame : CameraWeb.MediaStream -> HTMLVideoElement;
  loader : PoseWeb.Loader;
  (** [performance.now()] when the loop starts *)
  now : number;
  (** the handle the first [requestAnimationFrame] returns *)
  firstHandle : nat;
}.

(** [poseResult ? poseResult.normalizedLandmarks : null], as the argument
    type of [drawSkeleton]. *)
Definition landmarksArgument (poseResult : option PoseWeb.PoseResult)
    : option (list (option DrawLandmarks.NormalizedLandmark)) :=
  match poseResult with
  | None => None
  | Some result =>
      Some (map (fun lm => Some (DrawLandmarks.mkNormalizedLandmark
                                   (PoseWeb.ix lm) (PoseWeb.iy lm)
                                   (Some (PoseWeb.ivisibility lm))))
                (PoseWeb.normalizedLandmarks result))
  end.

(** The canvas element is styled [transform: "scaleX(-1)"], as the video
    element is: what is drawn at canvas abscissa [x] is shown, in canvas
    pixels, at [width - x]. *)
Definition presentedX (canvas : HTMLCanvasElement) (x : number) : number :=
  canvasWidth canvas - x.

(** [ctx.canvas] of the 2D context of a canvas element. *)
Definition surface (canvas : HTMLCanvasElement) : Canvas.Surface :=
  Canvas.mkSurface (canvasWidth canvas) (canvasHeight canvas).

(** *** The frame loop *)

(** [processFrame(timestamp)]; [nextHandle] is the handle the closing
    [requestAnimationFrame] returns. *)
Definition processFrame (timestamp : number) (nextHandle : nat) : Handler unit :=
  c ← get;
  match estimatorRef c, videoRef c, canvasRef c with
  | Some estimator, Some video, Some canvas =>
      if negb (context2d canvas) then mret tt
      else
        detected ← invoke (PoseWeb.detectPose video timestamp) estimator;
        (* the object behind [estimatorRef] is the one the call ran on *)
        modify (set_estimatorRef (Some detected.2));;
        emitAll (map Draw (DrawLandmarks.drawSkeleton (surface canvas)
                             (landmarksArgument detected.1)
                             DrawLandmarks.noOverrides));;
        c ← get;
        let deltaMs := sub timestamp (lastFrameTimeRef c) in
        modify (set_lastFrameTimeRef timestamp);;
        (if gtb deltaMs 0 then
           let instantFps := div 1000 deltaMs in
           modify (fun c =>
             set_fpsRef (add (mul (fpsRef c) (literal 0.9))
                             (mul instantFps (literal 0.1))) c)
         else mret tt);;
        c ← get;
        emitAll (map Draw (DrawLandmarks.drawFPS (fpsRef c)));;
        emit (RequestAnimationFrame nextHandle);;
        modify (set_animationFrameRef (Some nextHandle))
  | _, _, _ => mret tt
  end.

Definition startProcessingLoop (env : Env) : Handler unit :=
  emit (RequestAnimationFrame (firstHandle env));;
  modify (set_animationFrameRef (Some (firstHandle env))).

(** *** startSession *)

Definition sessionEstimatorConfig : PoseWeb.PartialPoseEstimatorConfig := {|
  PoseWeb.delegate' := Some PoseWeb.GPU;
  PoseWeb.numPoses' := Some 1;
  PoseWeb.minDetectionConfidence' := Some 0.5;
  PoseWeb.minTrackingConfidence' := Some 0.5;
  PoseWeb.minPresenceConfidence' := Some 0.5;
|}.

Definition sessionCameraConfig : CameraWeb.PartialCameraConfig := {|
  CameraWeb.width' := Some 640;
  CameraWeb.height' := Some 480;
  CameraWeb.facingMode' := None;
|}.

Definition startSession (env : Env) : Handler unit :=
  setScreenState loading;;
  setErrorMessage "";;
  tryCatch
    ((if negb (CameraWeb.isCameraSupported (navigator env)) then
        throw (ErrorObject
          ("Camera is not supported in this browser. "
           +:+ "Make sure you are using HTTPS (or localhost) and a modern browser."))
      else mret tt);;
     camera ← await (CameraWeb.startCamera (getUserMedia env) (firstFrame env)
                       sessionCameraConfig);
     modify (set_videoRef (Some (CameraWeb.videoElement camera)));;
     modify (set_stopCameraRef (Some camera));;
     initialized ← invoke (PoseWeb.init (loader env))
                     (PoseWeb.new sessionEstimatorConfig);
     modify (set_estimatorRef (Some initialized.2));;
     c ← get;
     match containerRef c, videoRef c with
     | true, Some video =>
         emit InsertVideoBeforeCanvas;;
         modify (set_videoRef
           (Some (mkVideo (videoWidth video) (videoHeight video) true)))
     | _, _ => mret tt
     end;;
     c ← get;
     match canvasRef c, videoRef c with
     | Some canvas, Some video =>
         modify (set_canvasRef
           (Some (mkCanvas (videoWidth video) (videoHeight video)
                    (context2d canvas))))
     | _, _ => mret tt
     end;;
     setScreenState running;;
     modify (set_lastFrameTimeRef (now env));;
     startProcessingLoop env)
    (fun caught =>
       cleanup;;
       let message :=
         match caught with
         | ErrorObject message => message
         | NonError _ => "An unknown error occurred"
         end in
       setErrorMessage message;;
       setScreenState error).

(** The Stop button. *)
Definition stopPressed : Handler unit :=
  cleanup;;
  setScreenState idle;;
  setDisplayFps 0.

(** The Try Again button. *)
Definition retryPressed : Handler unit :=
  setScreenState idle;;
  setErrorMessage "".

(** The effect clean-up that runs on unmount. *)
Definition unmount : Handler unit := cleanup.




End PosePrototypeScreen.

(** ** store/authStore.ts *)

Module AuthStore.

(** [AuthSession] *)
Record AuthSession : Type := mkAuthSession {
  userId : string;
  email : string;
  accessToken : string;
  refreshToken : string;
  expiresAt : number;
}.

(** [AuthError] *)
Record AuthError : Type := mkAuthError {
  code : string;
  message : string;
}.

(** [AuthResult] *)
Record AuthResult : Type := mkAuthResult {
  success : bool;
  resultSession : option AuthSession;
  resultError : option AuthError;
}.

(** The data fields of [AuthState]. *)
Record AuthState : Type := mkAuthState {
  session : option AuthSession;
  isLoading : bool;
  error : option string;
}.

(** The state the store is created with. *)
Definition initialState : AuthState := mkAuthState None true None.

(** The calls the store makes on [authService]. *)
Inductive ServiceCall : Type :=
| SignUpCall (email password : string)
| SignInCall (email password : string)
| SignOutCall
| ResetPasswordCall (email : string).

(** The auth service, as the store sees it: each call resolves or
    rejects. *)
Record AuthService : Type := mkAuthService {
  serviceSignUp : string -> string -> Completion AuthResult;
  serviceSignIn : string -> string -> Completion AuthResult;
  serviceSignOut : Completion unit;
  serviceResetPassword : string -> Completion unit;
}.

Definition Action (A : Type) : Type := Run ServiceCall AuthState A.

(** [result.error?.message ?? fallback] *)
Definition errorText (result : AuthResult) (fallback : string) : string :=
  match resultError result with
  | Some failure => message failure
  | None => fallback
  end.

Definition signUp (service : AuthService) (email password : string)
    : Action bool :=
  modify (fun st => mkAuthState (session st) true None);;
  emit (SignUpCall email password);;
  result ← await (serviceSignUp service email password);
  if negb (success result) then
    modify (fun st =>
      mkAuthState (session st) false (Some (errorText result "Sign up failed")));;
    mret false
  else
    modify (fun st => mkAuthState (session st) false (error st));;
    mret true.

Definition signIn (service : AuthService) (email password : string)
    : Action bool :=
  modify (fun st => mkAuthState (session st) true None);;
  emit (SignInCall email password);;
  result ← await (serviceSignIn service email password);
  if negb (success result) then
    modify (fun st =>
      mkAuthState (session st) false (Some (errorText result "Sign in failed")));;
    mret false
  else
    modify (fun st => mkAuthState (session st) false (error st));;
    mret true.

Definition signOut (service : AuthService) : Action unit :=
  modify (fun st => mkAuthState (session st) true (error st));;
  emit SignOutCall;;
  await (serviceSignOut service);;
  modify (fun st => mkAuthState None false (error st)).

Definition resetPassword (service : AuthService) (email : string)
    : Action bool :=
  modify (fun st => mkAuthState (session st) true None);;
  tryCatch
    (emit (ResetPasswordCall email);;
     await (serviceResetPassword service email);;
     modify (fun st => mkAuthState (session st) false (error st));;
     mret true)
    (fun err =>
       modify (fun st =>
         mkAuthState (session st) false
           (Some match err with
                 | ErrorObject text => text
                 | NonError _ => "Reset failed"
                 end));;
       mret false).

Definition clearError : Action unit :=
  modify (fun st => mkAuthState (session st) (isLoading st) None).

(** The callback [initialize()] registers with [onAuthStateChange], which
    is also what it does with the resolved [getSession()]. *)
Definition sessionArrived (arrived : option AuthSession) : Action unit :=
  modify (fun st => mkAuthState arrived false (error st)).

End AuthStore.

(** ** app/index.tsx *)

Module AppIndex.

Import AuthStore.

Inductive AuthView : Type := login | signup | reset.

Inductive AppView : Type := home | posePrototype.

(** What [Index()] renders. *)
Inductive Rendered : Type :=
| LoadingIndicator
| PosePrototypeScreen
| HomeScreen
| SignUpScreen
| ResetPasswordScreen
| LoginScreen.

Definition Index (store : AuthState) (authView : AuthView) (appView : AppView)
    : Rendered :=
  if isLoading store then LoadingIndicator
  else
    match session store with
    | Some _ =>
        match appView with
        | posePrototype => PosePrototypeScreen
        | home => HomeScreen
        end
    | None =>
        match authView with
        | signup => SignUpScreen
        | reset => ResetPasswordScreen
        | login => LoginScreen
        end
    end.

End AppIndex.

(** ** Vocabulary for the statements about the renderer *)

Module RendererTerms.

Import DrawLandmarks.

(** What a landmark's visibility counts as: an absent field reads 0. *)
Definition visibilityOf (landmark : NormalizedLandmark) : number :=
  default 0 (visibility landmark).

(** The same landmark with its visibility written out. *)
Definition withVisibility (v : number) (lm : NormalizedLandmark)
    : NormalizedLandmark :=
  mkNormalizedLandmark (x lm) (y lm) (Some v).

(** Writes 0 into the elements without a visibility field. *)
Definition zeroIfAbsent (e : option NormalizedLandmark)
    : option NormalizedLandmark :=
  match e with
  | Some lm =>
      match visibility lm with
      | Some _ => Some lm
      | None => Some (withVisibility 0 lm)
      end
  | None => None
  end.

(** Turns the elements without a visibility field into holes. *)
Definition dropIfAbsent (e : option NormalizedLandmark)
    : option NormalizedLandmark :=
  match e with
  | Some lm => match visibility lm with Some _ => Some lm | None => None end
  | None => None
  end.

End RendererTerms.

(** ** Vocabulary for the statements about the estimator *)

Module EstimatorTerms.

Import PoseWeb.

(** The model load of [init()] fails with [cause]: the fileset does not
    resolve, or it does and the landmarker cannot be created. *)
Definition loadFails (loader : Loader) (config : PoseEstimatorConfig)
    (cause : Thrown) : Prop :=
  forVisionTasks loader WASM_PATH = Threw cause
  \/ exists vision,
       forVisionTasks loader WASM_PATH = Returned vision
       /\ createFromOptions loader vision (landmarkerOptions config) = Threw cause.

(** An array of poses is populated when it is there, has a first pose,
    and that pose has at least one landmark. *)
Definition populated (poses : EnginePoses) : Prop :=
  exists first rest, poses = Some (Some first :: rest) /\ first <> [].

(** The engine the estimator holds, if it holds one, closes without
    throwing. *)
Definition closes (this : MediaPipePoseEstimator) : Prop :=
  forall engine, landmarker this = Some engine -> close engine = Returned tt.

End EstimatorTerms.

(** ** Vocabulary for the statements about the frame loop *)

Module FrameLoopTerms.

Import Dom PosePrototypeScreen.

(** The effects of [cleanup()], step by step. *)
Definition cancelEffects (c : Component) : list Effect :=
  match animationFrameRef c with
  | Some id => [CancelAnimationFrame id]
  | None => []
  end.

Definition disposeEffects (c : Component) : list Effect :=
  match estimatorRef c with
  | Some estimator => map Engine (effects (PoseWeb.dispose estimator))
  | None => []
  end.

Definition releaseEffects (c : Component) : list Effect :=
  match stopCameraRef c with
  | Some camera => map Camera (CameraWeb.stop camera)
  | None => []
  end.

Definition detachEffects (c : Component) : list Effect :=
  match videoRef c with
  | Some video => if parentNode video then [RemoveVideoFromParent] else []
  | None => []
  end.

Definition clearEffects (c : Component) : list Effect :=
  match canvasRef c with
  | Some canvas =>
      if context2d canvas
      then [Draw (ClearRect 0 0 (canvasWidth canvas) (canvasHeight canvas))]
      else []
  | None => []
  end.

(** The component after a [cleanup()] that returned. *)
Definition cleaned (c : Component) : Component :=
  mkComponent
    (match videoRef c with
     | Some video => if parentNode video then None else Some video
     | None => None
     end)
    (canvasRef c) (containerRef c) None None None
    (lastFrameTimeRef c) (fpsRef c) (screenState c) (errorMessage c)
    (displayFps c).

(** What the user is shown for a caught value. *)
Definition shownMessage (caught : Thrown) : string :=
  match caught with
  | ErrorObject message => message
  | NonError _ => "An unknown error occurred"
  end.

(** The smoothed rate after a frame that arrives [deltaMs] after the
    previous one, in the arithmetic of the machine. *)
Definition smoothed (previous deltaMs : number) : number :=
  if gtb deltaMs 0
  then Js.add (Js.mul previous (literal 0.9))
              (Js.mul (Js.div 1000 deltaMs) (literal 0.1))
  else previous.

(** A magnitude of at most 2^1023: with the previous rate, the delta and
    the instantaneous rate in this range, no step of the frame-rate update
    reaches 2^1024, where the machine would give an infinity. *)
Definition inRange (x : number) : Prop := Qabs x <= pow2 1023.

(** Nothing stops [cleanup()]: no estimator is held, or the engine of the
    held one closes without throwing. *)
Definition disposes (c : Component) : Prop :=
  forall estimator,
    estimatorRef c = Some estimator -> EstimatorTerms.closes estimator.

(** The frame callback runs to its end: the three refs are set, the
    canvas gives a context and the engine does not throw. *)
Definition frameRuns (c : Component) (timestamp : number) : Prop :=
  exists estimator video canvas result,
    estimatorRef c = Some estimator
    /\ videoRef c = Some video
    /\ canvasRef c = Some canvas
    /\ context2d canvas = true
    /\ outcome (PoseWeb.detectPose video timestamp estimator) = Returned result.

End FrameLoopTerms.

(** ** Further vocabulary for the renderer *)

Module RendererCounts.

Import DrawLandmarks RendererTerms.

(** An operation of the connection loop's path. *)
Definition isSegmentOp (op : Op) : bool :=
  match op with
  | MoveTo _ _ | LineTo _ _ | Stroke => true
  | _ => false
  end.

(** The array element is a landmark whose visibility reaches the
    threshold. *)
Definition shown (cfg : DrawConfig) (e : option NormalizedLandmark) : bool :=
  match e with
  | Some lm => Qle_bool (visibilityThreshold cfg) (visibilityOf lm)
  | None => false
  end.

(** Both endpoints of the connection are shown. *)
Definition joined (cfg : DrawConfig) (lms : list (option NormalizedLandmark))
    (connection : nat * nat) : bool :=
  shown cfg (elementAt lms connection.1) && shown cfg (elementAt lms connection.2).



End RendererCounts.

(** ** Further vocabulary for the estimator *)

Module EstimatorCalls.

Import Dom PoseWeb.

(** The estimator holds an engine exactly when it is ready. *)
Definition consistent (this : MediaPipePoseEstimator) : Prop :=
  is_Some (landmarker this) <-> state this = ready.

(** One call of a caller that does not overlap its calls. *)
Inductive Call : Type :=
| CallInit (loader : Loader)
| CallDetectPose (videoElement : HTMLVideoElement) (timestampMs : number)
| CallDispose.

(** What a call gave back. *)
Inductive Reply : Type :=
| InitReply (completion : Completion unit)
| DetectPoseReply (completion : Completion (option PoseResult))
| DisposeReply (completion : Completion unit).

(** Runs one call on the estimator. *)
Definition perform (call : Call) (this : MediaPipePoseEstimator)
    : Reply * MediaPipePoseEstimator * list EngineEffect :=
  match call with
  | CallInit loader =>
      let r := init loader this in (InitReply (outcome r), final r, effects r)
  | CallDetectPose videoElement timestampMs =>
      let r := detectPose videoElement timestampMs this in
      (DetectPoseReply (outcome r), final r, effects r)
  | CallDispose =>
      let r := dispose this in (DisposeReply (outcome r), final r, effects r)
  end.

(** Runs the calls one after the other. *)
Fixpoint performAll (calls : list Call) (this : MediaPipePoseEstimator)
    : list Reply * MediaPipePoseEstimator * list EngineEffect :=
  match calls with
  | [] => ([], this, [])
  | call :: rest =>
      match perform call this with
      | (reply, this1, log1) =>
          match performAll rest this1 with
          | (replies, this2, log2) => (reply :: replies, this2, log1 ++ log2)
          end
      end
  end.

(** What a disposed estimator answers to a call. *)
Definition disposedReply (call : Call) : Reply :=
  match call with
  | CallInit _ =>
      InitReply (Threw (ErrorObject
        "Cannot initialize a disposed PoseEstimator. Create a new instance instead."))
  | CallDetectPose _ _ => DetectPoseReply (Returned None)
  | CallDispose => DisposeReply (Returned tt)
  end.

End EstimatorCalls.

(** ** Further vocabulary for the frame loop *)

Module FrameLoopRuns.

Import Dom PosePrototypeScreen.

(** The message of the capability probe. *)
Definition unsupportedMessage : string :=
  "Camera is not supported in this browser. Make sure you are using HTTPS (or localhost) and a modern browser.".

(** Frame callbacks run one after the other, each with its timestamp and
    the handle its closing [requestAnimationFrame] returns. *)
Fixpoint runFrames (frames : list (number * nat)) (c : Component) : Component :=
  match frames with
  | [] => c
  | (timestamp, nextHandle) :: rest =>
      runFrames rest (final (processFrame timestamp nextHandle c))
  end.

End FrameLoopRuns.

(** ** The Standard Library's IEEE 754 arithmetic, for comparison *)

Module Binary64Terms.

(** The binary64 value nearest to [x], as a float of the Standard
    Library's specification of IEEE 754 arithmetic ([SpecFloat]). *)
Definition toSpec (x : Q) : spec_float :=
  match Qcompare x 0 with
  | Eq => S754_zero false
  | Gt =>
      match roundEven (x / ulp x) with
      | Zpos m => S754_finite false m (Z.max (exponent x - 52) (-1074))
      | _ => S754_zero false
      end
  | Lt =>
      match roundEven (- x / ulp (- x)) with
      | Zpos m => S754_finite true m (Z.max (exponent (- x) - 52) (-1074))
      | _ => S754_zero true
      end
  end.

(** The value of a finite float. *)
Definition ofSpec (f : spec_float) : option Q :=
  match f with
  | S754_zero _ => Some 0
  | S754_finite negative m e =>
      Some (Qred ((if negative then -1 else 1) * inject_Z (Zpos m) * pow2 e))
  | S754_infinity _ | S754_nan => None
  end.

(** [a + b], [a - b], [a * b], [a / b] in binary64, by [SpecFloat]. *)
Definition specAdd (a b : Q) : option Q :=
  ofSpec (SFadd 53 1024 (toSpec a) (toSpec b)).
Definition specSub (a b : Q) : option Q :=
  ofSpec (SFsub 53 1024 (toSpec a) (toSpec b)).
Definition specMul (a b : Q) : option Q :=
  ofSpec (SFmul 53 1024 (toSpec a) (toSpec b)).
Definition specDiv (a b : Q) : option Q :=
  ofSpec (SFdiv 53 1024 (toSpec a) (toSpec b)).

End Binary64Terms.

(** ** Fixtures of the repository's test suite *)

Module TestFixtures.

Import DrawLandmarks.

(** [createMockContext()] *)
Definition mockContext : Surface := mkSurface 640 480.

(** [createTestLandmarks(count)] *)
Definition createTestLandmarks (count : nat)
    : list (option NormalizedLandmark) :=
  map (fun i : nat =>
         Some (mkNormalizedLandmark
                 (inject_Z (Z.of_nat i) / inject_Z (Z.of_nat count))
                 (inject_Z (Z.of_nat i) / inject_Z (Z.of_nat count))
                 (Some (if (i <? 2)%nat then 0.9 else 0.1))))
      (seq 0 count).

(** [Array.from({ length: 33 }, () => ({ x: 0.5, y: 0.5, visibility }))] *)
Definition uniform (visibility : number) : list (option NormalizedLandmark) :=
  replicate 33 (Some (mkNormalizedLandmark 0.5 0.5 (Some visibility))).

Definition onlyThreshold (t : number) : PartialDrawConfig :=
  mkPartialDrawConfig None None None None None None (Some t).

End TestFixtures.

(** * Properties *)

(** ** Number comparisons *)

Section Comparisons.

Lemma ltb_lt (a b : number) : ltb a b = true <-> a < b.
Proof. unfold ltb, Qlt. apply Z.ltb_lt. Qed.

Lemma ltb_ge (a b : number) : ltb a b = false <-> b <= a.
Proof. unfold ltb, Qle. apply Z.ltb_ge. Qed.

Lemma gtb_gt (a b : number) : gtb a b = true <-> b < a.
Proof. apply ltb_lt. Qed.

Lemma gtb_le (a b : number) : gtb a b = false <-> a <= b.
Proof. apply ltb_ge. Qed.

Lemma eqb_eq (a b : number) : eqb a b = true <-> a == b.
Proof. apply Qeq_bool_iff. Qed.

End Comparisons.

(** ** The overlay renderer *)

Module DrawLandmarksFacts.

Import DrawLandmarks RendererTerms.

Lemma elem_of_flat_map {A B : Type} (f : A -> list B) (l : list A) (b : B) :
  b ∈ flat_map f l <-> exists a, a ∈ l /\ b ∈ f a.
Proof.
  rewrite list_elem_of_In, in_flat_map.
  split; intros (a & Ha & Hb); exists a.
  - by rewrite !list_elem_of_In.
  - by rewrite <- !list_elem_of_In.
Qed.

Section Bodies.

Variables (cfg : DrawConfig) (w h : number).

(** One iteration of the dot loop draws the two circles exactly when
    the visibility is not below the threshold. *)
Lemma drawLandmark_shown (lm : NormalizedLandmark) :
  visibilityThreshold cfg <= visibilityOf lm ->
  drawLandmark cfg w h (Some lm) =
    [ BeginPath; Arc (x lm * w) (y lm * h) (landmarkRadius cfg + 1);
      SetFillStyle "white"; Fill;
      BeginPath; Arc (x lm * w) (y lm * h) (landmarkRadius cfg);
      SetFillStyle (getConfidenceColor (visibilityOf lm) cfg); Fill ].
Proof.
  intros Hv. apply ltb_ge in Hv. unfold drawLandmark.
  fold (visibilityOf lm). by rewrite Hv.
Qed.

Lemma drawLandmark_hidden (lm : NormalizedLandmark) :
  visibilityOf lm < visibilityThreshold cfg ->
  drawLandmark cfg w h (Some lm) = [].
Proof.
  intros Hv. apply ltb_lt in Hv. unfold drawLandmark.
  fold (visibilityOf lm). by rewrite Hv.
Qed.


Variable lms : list (option NormalizedLandmark).

(** One iteration of the connection loop draws the segment exactly when
    both endpoints exist and neither is below the threshold. *)
Lemma drawConnection_shown (s e : nat) (ls le : NormalizedLandmark) :
  elementAt lms s = Some ls -> elementAt lms e = Some le ->
  visibilityThreshold cfg <= visibilityOf ls ->
  visibilityThreshold cfg <= visibilityOf le ->
  drawConnection cfg w h lms (s, e) =
    [ BeginPath; MoveTo (x ls * w) (y ls * h);
      LineTo (x le * w) (y le * h); Stroke ].
Proof.
  intros Hs He Hvs%ltb_ge Hve%ltb_ge. unfold drawConnection.
  rewrite Hs, He. fold (visibilityOf ls) (visibilityOf le).
  by rewrite Hvs, Hve.
Qed.

Lemma drawConnection_hidden_start (s e : nat) (ls : NormalizedLandmark) :
  elementAt lms s = Some ls ->
  visibilityOf ls < visibilityThreshold cfg ->
  drawConnection cfg w h lms (s, e) = [].
Proof.
  intros Hs Hv%ltb_lt. unfold drawConnection. rewrite Hs.
  destruct (elementAt lms e); [|done].
  fold (visibilityOf ls). by rewrite Hv.
Qed.

Lemma drawConnection_hidden_end (s e : nat) (le : NormalizedLandmark) :
  elementAt lms e = Some le ->
  visibilityOf le < visibilityThreshold cfg ->
  drawConnection cfg w h lms (s, e) = [].
Proof.
  intros He Hv%ltb_lt. unfold drawConnection. rewrite He.
  destruct (elementAt lms s) as [ls|]; [|done].
  fold (visibilityOf le). rewrite Hv. by rewrite orb_true_r.
Qed.



End Bodies.

End DrawLandmarksFacts.

Module OverlayRenderer.

Import DrawLandmarks RendererTerms DrawLandmarksFacts.

(** *** Shape of the issued operations *)

Lemma drawSkeleton_null (ctx : Surface) (config : PartialDrawConfig) :
  drawSkeleton ctx None config = [ClearRect 0 0 (width ctx) (height ctx)].
Proof. reflexivity. Qed.


(** On a non-empty array the call clears, sets the line style, runs the
    connection loop and then the dot loop. *)
Lemma drawSkeleton_nonempty (ctx : Surface)
    (lms : list (option NormalizedLandmark)) (config : PartialDrawConfig) :
  lms <> [] ->
  drawSkeleton ctx (Some lms) config =
    let cfg := spread DEFAULT_DRAW_CONFIG config in
    ClearRect 0 0 (width ctx) (height ctx)
    :: [ SetStrokeStyle (connectionColor cfg);
         SetLineWidth (connectionLineWidth cfg); SetLineCap "round" ]
    ++ flat_map (drawConnection cfg (width ctx) (height ctx) lms)
         SKELETON_CONNECTIONS
    ++ flat_map (drawLandmark cfg (width ctx) (height ctx)) lms.
Proof. by destruct lms. Qed.




(** *** Coordinate mapping *)




(** The mirror of the selfie view is the presentation transform of the
    canvas, not the mapping: drawn at [x * width], a landmark is shown at
    [width - x * width]; at x = 0.2 on a canvas 640 wide, at 512. *)
Lemma mirror_is_in_presentation (landmark : NormalizedLandmark)
    (canvas : Dom.HTMLCanvasElement) :
  let drawn :=
    toCanvasCoords landmark (Dom.canvasWidth canvas) (Dom.canvasHeight canvas) in
  PosePrototypeScreen.presentedX canvas (px drawn)
    = Dom.canvasWidth canvas - x landmark * Dom.canvasWidth canvas
  /\ (x landmark == 0.2 -> Dom.canvasWidth canvas == 640 ->
      PosePrototypeScreen.presentedX canvas (px drawn) == 512).
Proof.
  split; [done|]. intros Hx Hw.
  unfold PosePrototypeScreen.presentedX. cbn [toCanvasCoords px].
  rewrite Hx, Hw. reflexivity.
Qed.

Lemma mirror_is_in_presentation_witness :
  PosePrototypeScreen.presentedX (Dom.mkCanvas 640 480 true)
    (px (toCanvasCoords (mkNormalizedLandmark 0.2 0.5 (Some 0.9)) 640 480))
  == 512.
Proof.
  apply (mirror_is_in_presentation (mkNormalizedLandmark 0.2 0.5 (Some 0.9))
           (Dom.mkCanvas 640 480 true)); reflexivity.
Defined.

(** *** Clearing *)

(** C9.  Every call clears the whole surface first, whatever the input;
    on [null] and on an empty array the clear is the only operation, so
    no dot and no line is drawn. *)
Theorem drawSkeleton_clears_first (ctx : Surface)
    (normalizedLandmarks : option (list (option NormalizedLandmark)))
    (config : PartialDrawConfig) :
  (exists rest,
     drawSkeleton ctx normalizedLandmarks config =
       ClearRect 0 0 (width ctx) (height ctx) :: rest)
  /\ drawSkeleton ctx None config = [ClearRect 0 0 (width ctx) (height ctx)]
  /\ drawSkeleton ctx (Some []) config = [ClearRect 0 0 (width ctx) (height ctx)].
Proof.
  split; [|split; reflexivity].
  unfold drawSkeleton. eauto.
Qed.

(** *** The drawability threshold *)




(** *** Landmarks without a visibility field *)

Lemma flat_map_fmap {A B C : Type} (f : A -> B) (g : B -> list C) (l : list A) :
  flat_map g (f <$> l) = flat_map (fun a => g (f a)) l.
Proof. induction l as [|a l IH]; cbn; [done|]. by rewrite IH. Qed.

Lemma elementAt_fmap {A : Type} (f : option A -> option A)
    (l : list (option A)) (i : nat) :
  f None = None ->
  elementAt (f <$> l) i = f (elementAt l i).
Proof.
  intros Hf. unfold elementAt. rewrite list_lookup_fmap.
  by destruct (l !! i) as [e|].
Qed.

Lemma drawSkeleton_fmap (ctx : Surface) (config : PartialDrawConfig)
    (f : option NormalizedLandmark -> option NormalizedLandmark)
    (lms : list (option NormalizedLandmark)) :
  let cfg := spread DEFAULT_DRAW_CONFIG config in
  f None = None ->
  (forall e, drawLandmark cfg (width ctx) (height ctx) (f e)
             = drawLandmark cfg (width ctx) (height ctx) e) ->
  (forall c, drawConnection cfg (width ctx) (height ctx) (f <$> lms) c
             = drawConnection cfg (width ctx) (height ctx) lms c) ->
  drawSkeleton ctx (Some (f <$> lms)) config = drawSkeleton ctx (Some lms) config.
Proof.
  intros cfg Hf Hdot Hconn.
  assert (Hcases : lms = [] \/ lms <> [])
    by (destruct lms; [by left | by right]).
  destruct Hcases as [-> | Hne]; [done|].
  assert (Hne' : f <$> lms <> []) by (by destruct lms).
  rewrite !drawSkeleton_nonempty by done. cbn zeta. fold cfg.
  rewrite flat_map_fmap. do 3 f_equal.
  - apply flat_map_ext. intros c. apply Hconn.
  - apply flat_map_ext. intros e. apply Hdot.
Qed.

(** C10.  A landmark without a visibility field is treated as having
    visibility 0: the drawing is the one obtained with 0 written into
    the field.  Hence, for every positive threshold, such a landmark is
    never drawn and every connection that has it as an endpoint is
    skipped, however visible the other endpoint is: the drawing is the
    one obtained with the landmark taken out of the array. *)
Theorem absent_visibility_is_zero (ctx : Surface)
    (lms : list (option NormalizedLandmark)) (config : PartialDrawConfig) :
  let cfg := spread DEFAULT_DRAW_CONFIG config in
  let w := width ctx in
  let h := height ctx in
  drawSkeleton ctx (Some lms) config
    = drawSkeleton ctx (Some (zeroIfAbsent <$> lms)) config
  /\ (0 < visibilityThreshold cfg ->
      (forall lm, visibility lm = None ->
         drawLandmark cfg w h (Some lm) = []
         /\ forall s e,
              elementAt lms s = Some lm \/ elementAt lms e = Some lm ->
              drawConnection cfg w h lms (s, e) = [])
      /\ drawSkeleton ctx (Some lms) config
         = drawSkeleton ctx (Some (dropIfAbsent <$> lms)) config).
Proof.
  intros cfg w h. split.
  - symmetry. apply drawSkeleton_fmap; [done| |].
    + by intros [[a b [v|]]|].
    + intros [s e]. unfold drawConnection.
      rewrite !elementAt_fmap by done.
      destruct (elementAt lms s) as [[a b [v|]]|],
               (elementAt lms e) as [[a' b' [v'|]]|]; done.
  - intros Hpos.
    assert (Habsent : forall lm, visibility lm = None ->
              visibilityOf lm < visibilityThreshold cfg).
    { intros lm Hnone. unfold visibilityOf. by rewrite Hnone. }
    split.
    + intros lm Hnone. split; [by apply drawLandmark_hidden, Habsent|].
      intros s e [Hs|He].
      * eapply drawConnection_hidden_start; eauto.
      * eapply drawConnection_hidden_end; eauto.
    + symmetry. apply drawSkeleton_fmap; [done| |].
      * intros [[a b [v|]]|]; try done. cbn [dropIfAbsent visibility].
        symmetry. by apply drawLandmark_hidden, Habsent.
      * intros [s e]. unfold drawConnection.
        rewrite !elementAt_fmap by done.
        assert (Hlt : ltb 0 (visibilityThreshold cfg) = true)
          by (by apply ltb_lt).
        destruct (elementAt lms s) as [[a b [v|]]|],
                 (elementAt lms e) as [[a' b' [v'|]]|];
          cbn [dropIfAbsent visibility default from_option id];
          fold cfg; rewrite ?Hlt, ?orb_true_r; done.
Qed.

Lemma absent_visibility_is_zero_witness :
  let shoulder := mkNormalizedLandmark 0.4 0.3 None in
  let lms := replicate 11 (Some (mkNormalizedLandmark 0.5 0.5 (Some 0.9)))
             ++ [Some shoulder; Some (mkNormalizedLandmark 0.6 0.3 (Some 0.9))] in
  drawLandmark DEFAULT_DRAW_CONFIG 640 480 (Some shoulder) = []
  /\ drawConnection DEFAULT_DRAW_CONFIG 640 480 lms (11%nat, 12%nat) = [].
Proof.
  intros shoulder lms.
  destruct (absent_visibility_is_zero (mkSurface 640 480) lms noOverrides)
    as [_ Hpositive].
  destruct (Hpositive ltac:(by vm_compute)) as [Hhidden _].
  destruct (Hhidden shoulder eq_refl) as [Hdot Hconn].
  split; [exact Hdot|].
  apply Hconn. left. reflexivity.
Defined.

End OverlayRenderer.

(** ** The landmark estimator *)

Module Estimator.

Import Dom PoseWeb EstimatorTerms.

(** *** dispose *)

Lemma dispose_run (this : MediaPipePoseEstimator) :
  closes this ->
  dispose this =
    (Returned tt,
     mkEstimator None disposed (config this),
     match landmarker this with
     | Some engine => [LandmarkerClose (handle engine)]
     | None => []
     end).
Proof.
  destruct this as [[engine|] st cfg]; intros Hcloses; [|done].
  unfold dispose, setLandmarker, setState. run_unfold. cbn [landmarker].
  by rewrite (Hcloses engine eq_refl).
Qed.

Lemma dispose_throws (this : MediaPipePoseEstimator)
    (engine : PoseLandmarker) (thrown : Thrown) :
  landmarker this = Some engine ->
  close engine = Threw thrown ->
  dispose this = (Threw thrown, this, [LandmarkerClose (handle engine)]).
Proof.
  destruct this as [l st cfg]. cbn [landmarker]. intros -> Hclose.
  unfold dispose, setLandmarker, setState. run_unfold. cbn [landmarker].
  by rewrite Hclose.
Qed.

(** [dispose()] returns exactly when there is no engine to close or the
    engine closes without throwing. *)
Lemma dispose_returns (this : MediaPipePoseEstimator) :
  outcome (dispose this) = Returned tt <-> closes this.
Proof.
  split.
  - intros Hout engine Hengine.
    destruct (close engine) as [[]|thrown] eqn:Hclose; [done|].
    rewrite (dispose_throws this engine thrown Hengine Hclose) in Hout.
    discriminate.
  - intros Hcloses. by rewrite dispose_run.
Qed.




(** *** init *)

Lemma init_success (loader : Loader) (this : MediaPipePoseEstimator)
    (vision : WasmFileset) (engine : PoseLandmarker) :
  state this = uninitialized ->
  forVisionTasks loader WASM_PATH = Returned vision ->
  createFromOptions loader vision (landmarkerOptions (config this))
    = Returned engine ->
  init loader this
    = (Returned tt, mkEstimator (Some engine) ready (config this), []).
Proof.
  destruct this as [l st cfg]. cbn [state config]. intros -> Hv Hc.
  unfold init, setState, setLandmarker. run_unfold. rewrite Hv.
  run_unfold. cbn [config]. rewrite Hc. reflexivity.
Qed.

Lemma init_failure (loader : Loader) (this : MediaPipePoseEstimator)
    (cause : Thrown) :
  state this = uninitialized ->
  loadFails loader (config this) cause ->
  init loader this
    = (Threw (ErrorObject
         ("Failed to initialize MediaPipe PoseEstimator: " +:+ messageOf cause)),
       mkEstimator (landmarker this) uninitialized (config this), []).
Proof.
  destruct this as [l st cfg]. cbn [state config landmarker].
  intros -> [Hv | (vision & Hv & Hc)];
    unfold init, setState, setLandmarker; run_unfold; rewrite Hv;
    run_unfold; cbn [config].
  - reflexivity.
  - rewrite Hc. reflexivity.
Qed.

(** C4.  [init()] while [loading] or [ready] does nothing; on a disposed
    estimator it throws an explicit error and changes nothing; and when
    the model load fails it puts the state back to [uninitialized] and
    throws an initialization error whose message carries the message of
    the underlying cause. *)
Theorem init_transitions (loader : Loader) (this : MediaPipePoseEstimator) :
  (state this = loading \/ state this = ready ->
     init loader this = (Returned tt, this, []))
  /\ (state this = disposed ->
        init loader this
          = (Threw (ErrorObject
               "Cannot initialize a disposed PoseEstimator. Create a new instance instead."),
             this, []))
  /\ (forall cause,
        state this = uninitialized ->
        loadFails loader (config this) cause ->
        outcome (init loader this)
          = Threw (ErrorObject
              ("Failed to initialize MediaPipe PoseEstimator: "
               +:+ messageOf cause))
        /\ state (final (init loader this)) = uninitialized
        /\ effects (init loader this) = []).
Proof.
  split; [|split].
  - destruct this as [l st cfg]. cbn [state]. by intros [-> | ->].
  - destruct this as [l st cfg]. cbn [state]. by intros ->.
  - intros cause Hst Hfail. by rewrite (init_failure loader this cause).
Qed.

Lemma init_transitions_witness :
  let loader :=
    mkLoader (fun _ => Threw (ErrorObject "network down"))
             (fun _ _ => Threw (NonError "not reached")) in
  let this := new (mkPartialConfig None None None None None) in
  outcome (init loader this)
    = Threw (ErrorObject
        "Failed to initialize MediaPipe PoseEstimator: network down")
  /\ state (final (init loader this)) = uninitialized.
Proof.
  intros loader this.
  destruct (init_transitions loader this) as (_ & _ & Hfail).
  destruct (Hfail (ErrorObject "network down") eq_refl (or_introl eq_refl))
    as (Hthrown & Hstate & _).
  split; [exact Hthrown | exact Hstate].
Defined.

(** *** detectPose *)

(** C3.  When the life-cycle state is not [ready], or the frame has zero
    width or zero height, [detectPose] returns [null]: it does not throw,
    does not call the engine and leaves the estimator as it was. *)
Theorem detectPose_guards (this : MediaPipePoseEstimator)
    (videoElement : HTMLVideoElement) (timestampMs : number) :
  state this <> ready
  \/ videoWidth videoElement == 0
  \/ videoHeight videoElement == 0 ->
  detectPose videoElement timestampMs this = (Returned None, this, []).
Proof.
  intros Hguard. unfold detectPose. run_unfold.
  destruct (bool_decide (state this ≠ ready)) eqn:Hst; [done|].
  apply bool_decide_eq_false in Hst.
  destruct (landmarker this) as [engine|]; [|done].
  destruct Hguard as [Hne | [Hw | Hh]]; [done| |].
  - apply eqb_eq in Hw. by rewrite Hw.
  - apply eqb_eq in Hh. rewrite Hh. by rewrite orb_true_r.
Qed.

Lemma detectPose_guards_witness :
  detectPose (mkVideo 0 480 false) 16 (new (mkPartialConfig None None None None None))
    = (Returned None, new (mkPartialConfig None None None None None), []).
Proof.
  apply detectPose_guards. left. discriminate.
Defined.

Lemma firstPose_Some (poses : EnginePoses) (first : list EngineLandmark) :
  firstPose poses = Some first ->
  first <> [] /\ exists rest, poses = Some (Some first :: rest).
Proof.
  destruct poses as [[|[[|lm pose]|] rest]|]; try discriminate.
  intros [= <-]. split; [done|]. by exists rest.
Qed.

Lemma firstPose_None (poses : EnginePoses) :
  firstPose poses = None <-> ~ populated poses.
Proof.
  split.
  - intros Hnone (first & rest & -> & Hne).
    destruct first; [done | discriminate].
  - intros Hnot. destruct (firstPose poses) as [first|] eqn:Hfirst; [|done].
    destruct Hnot. apply firstPose_Some in Hfirst as [Hne [rest ->]].
    by exists first, rest.
Qed.

(** C5.  In the [ready] state a detection is returned only if the engine
    result has both the world-space and the normalized-space array
    populated; when the engine returns a result in which either of them
    is empty or missing, the call returns [null]. *)
Theorem detectPose_needs_both (this : MediaPipePoseEstimator)
    (videoElement : HTMLVideoElement) (timestampMs : number) :
  state this = ready ->
  (forall detection,
     outcome (detectPose videoElement timestampMs this)
       = Returned (Some detection) ->
     exists engine result,
       landmarker this = Some engine
       /\ detectForVideo engine videoElement timestampMs = Returned result
       /\ populated (resultWorldLandmarks result)
       /\ populated (resultLandmarks result))
  /\ (forall engine result,
        landmarker this = Some engine ->
        detectForVideo engine videoElement timestampMs = Returned result ->
        ~ populated (resultWorldLandmarks result)
        \/ ~ populated (resultLandmarks result) ->
        detectPose videoElement timestampMs this = (Returned None, this, [])).
Proof.
  intros Hready. unfold detectPose. run_unfold.
  rewrite bool_decide_eq_false_2 by (by rewrite Hready; intros []).
  split.
  - intros detection. destruct (landmarker this) as [engine|]; [|done].
    destruct (_ || _); [done|].
    destruct (detectForVideo engine videoElement timestampMs)
      as [result|thrown] eqn:Hcall; [|done].
    destruct (firstPose (resultWorldLandmarks result)) as [world|] eqn:Hw;
      [|done].
    destruct (firstPose (resultLandmarks result)) as [normalized|] eqn:Hn;
      [|done].
    intros _. exists engine, result. repeat split; try done.
    + apply firstPose_Some in Hw as [? [rest ->]]. by exists world, rest.
    + apply firstPose_Some in Hn as [? [rest ->]]. by exists normalized, rest.
  - intros engine result -> Hcall Hmissing.
    destruct (_ || _); [done|]. rewrite Hcall.
    destruct Hmissing as [Hw%firstPose_None | Hn%firstPose_None].
    + by rewrite Hw.
    + rewrite Hn. by destruct (firstPose (resultWorldLandmarks result)).
Qed.

Lemma detectPose_needs_both_witness :
  let lm := mkEngineLandmark 0.5 0.5 0 (Some 0.9) in
  let result := mkResult (Some []) (Some [Some [lm]]) in
  let engine := mkLandmarker 1 (fun _ _ => Returned result)
      (Returned tt) in
  let this := mkEstimator (Some engine) ready DEFAULT_CONFIG in
  detectPose (mkVideo 640 480 false) 16 this = (Returned None, this, []).
Proof.
  intros lm result engine this.
  destruct (detectPose_needs_both this (mkVideo 640 480 false) 16 eq_refl)
    as [_ Hmissing].
  apply (Hmissing engine result eq_refl eq_refl).
  right. intros (first & rest & Heq & _). discriminate.
Defined.

(** [init()] performs no engine effect of its own. *)
Lemma init_effects (loader : Loader) (this : MediaPipePoseEstimator) :
  effects (init loader this) = [].
Proof.
  destruct this as [l [] cfg]; try done.
  unfold init, setState, setLandmarker. run_unfold. cbn [state config].
  destruct (forVisionTasks loader WASM_PATH) as [vision|]; [|done].
  run_unfold. by destruct (createFromOptions _ _ _).
Qed.

(** *** After disposal *)

(** A disposed estimator is not ready, detects nothing and cannot be
    initialized again. *)
Lemma disposed_is_terminal (loader : Loader) (this : MediaPipePoseEstimator)
    (videoElement : HTMLVideoElement) (timestampMs : number) :
  closes this ->
  let gone := final (dispose this) in
  isReady gone = false
  /\ detectPose videoElement timestampMs gone = (Returned None, gone, [])
  /\ outcome (init loader gone)
     = Threw (ErrorObject
         "Cannot initialize a disposed PoseEstimator. Create a new instance instead.")
  /\ final (init loader gone) = gone.
Proof. intros Hcloses. rewrite dispose_run by done. by repeat split. Qed.

(** A fresh estimator whose load succeeds becomes ready and holds the
    engine. *)
Lemma init_makes_ready (loader : Loader) (config : PartialPoseEstimatorConfig)
    (vision : WasmFileset) (engine : PoseLandmarker) :
  forVisionTasks loader WASM_PATH = Returned vision ->
  createFromOptions loader vision
    (landmarkerOptions (spread DEFAULT_CONFIG config)) = Returned engine ->
  isReady (final (init loader (new config))) = true
  /\ landmarker (final (init loader (new config))) = Some engine.
Proof.
  intros Hv Hc.
  by rewrite (init_success loader (new config) vision engine).
Qed.

End Estimator.

(** ** The frame loop controller *)

Module FrameLoop.

Import Dom PosePrototypeScreen FrameLoopTerms.

(** *** cleanup *)

Lemma disposes_returns (c : Component)
    (estimator : PoseWeb.MediaPipePoseEstimator) :
  disposes c -> estimatorRef c = Some estimator ->
  outcome (PoseWeb.dispose estimator) = Returned tt.
Proof. intros Hc He. apply Estimator.dispose_returns, (Hc estimator He). Qed.

Lemma cleanup_run (c : Component) :
  disposes c ->
  cleanup c =
    (Returned tt, cleaned c,
     cancelEffects c ++ disposeEffects c ++ releaseEffects c
     ++ detachEffects c ++ clearEffects c).
Proof.
  intros Hdisposes.
  assert (Hout : forall estimator, estimatorRef c = Some estimator ->
            outcome (PoseWeb.dispose estimator) = Returned tt)
    by (intros estimator; apply disposes_returns, Hdisposes).
  clear Hdisposes.
  destruct c as [v cv ct est stop af last fps st msg dfps].
  unfold cleanup, cleaned, cancelEffects, disposeEffects, releaseEffects,
    detachEffects, clearEffects, invoke.
  cbn [animationFrameRef estimatorRef stopCameraRef videoRef canvasRef
       containerRef lastFrameTimeRef fpsRef screenState errorMessage displayFps]
    in *.
  destruct est as [estimator|].
  - specialize (Hout estimator eq_refl).
    destruct (PoseWeb.dispose estimator) as [[disposal this'] log] eqn:Hrun.
    cbn in Hout. subst disposal.
    destruct af as [id|], stop as [camera|],
      v as [[vw vh [|]]|], cv as [[cw ch [|]]|];
      run_unfold; cbn; rewrite Hrun; cbn; rewrite ?app_nil_r; reflexivity.
  - clear Hout.
    destruct af as [id|], stop as [camera|],
      v as [[vw vh [|]]|], cv as [[cw ch [|]]|];
      run_unfold; cbn; rewrite ?app_nil_r; reflexivity.
Qed.

(** When disposing the held estimator throws, [cleanup()] throws at that
    point: the pending frame has been cancelled, and nothing after the
    disposal has run. *)
Lemma cleanup_throws (c : Component)
    (estimator : PoseWeb.MediaPipePoseEstimator) (thrown : Thrown) :
  estimatorRef c = Some estimator ->
  outcome (PoseWeb.dispose estimator) = Threw thrown ->
  cleanup c
    = (Threw thrown, set_animationFrameRef None c,
       cancelEffects c ++ disposeEffects c).
Proof.
  destruct c as [v cv ct est stop af last fps st msg dfps].
  cbn [estimatorRef]. intros -> Hout.
  unfold cleanup, cancelEffects, disposeEffects, invoke, set_animationFrameRef.
  cbn [animationFrameRef estimatorRef stopCameraRef videoRef canvasRef
       containerRef lastFrameTimeRef fpsRef screenState errorMessage displayFps].
  destruct (PoseWeb.dispose estimator) as [[disposal this'] log] eqn:Hrun.
  cbn in Hout. subst disposal.
  destruct af as [id|]; run_unfold; cbn; rewrite Hrun; cbn; reflexivity.
Qed.

(** [cleanup()] returns exactly when nothing stops it. *)
Lemma cleanup_returns (c : Component) :
  outcome (cleanup c) = Returned tt <-> disposes c.
Proof.
  split.
  - intros Hout estimator He. apply Estimator.dispose_returns.
    destruct (outcome (PoseWeb.dispose estimator)) as [[]|thrown] eqn:Hd;
      [done|].
    rewrite (cleanup_throws c estimator thrown He Hd) in Hout. discriminate.
  - intros Hdisposes. by rewrite cleanup_run.
Qed.

(** *** A start whose estimator fails to initialize *)

Lemma startSession_init_rejected (env : Env) (c : Component)
    (camera : CameraWeb.CameraStream) (cause : Thrown) :
  disposes c ->
  CameraWeb.isCameraSupported (navigator env) = true ->
  CameraWeb.startCamera (getUserMedia env) (firstFrame env) sessionCameraConfig
    = Returned camera ->
  outcome (PoseWeb.init (loader env) (PoseWeb.new sessionEstimatorConfig))
    = Threw cause ->
  let acquired :=
    mkComponent (Some (CameraWeb.videoElement camera)) (canvasRef c)
      (containerRef c) (estimatorRef c) (Some camera) (animationFrameRef c)
      (lastFrameTimeRef c) (fpsRef c) loading "" (displayFps c) in
  effects (startSession env c)
    = [SetScreenState loading; SetErrorMessage ""]
      ++ (cancelEffects acquired ++ disposeEffects acquired
          ++ map Camera (CameraWeb.stop camera)
          ++ detachEffects acquired ++ clearEffects acquired)
      ++ [SetErrorMessage (shownMessage cause); SetScreenState error]
  /\ outcome (startSession env c) = Returned tt
  /\ screenState (final (startSession env c)) = error
  /\ errorMessage (final (startSession env c)) = shownMessage cause
  /\ stopCameraRef (final (startSession env c)) = None
  /\ estimatorRef (final (startSession env c)) = None.
Proof.
  destruct c as [v cv ct est stop af last fps st msg dfps].
  intros Hdisposes Hsupported Hcamera Hinit acquired.
  cbn [videoRef canvasRef containerRef estimatorRef stopCameraRef
       animationFrameRef lastFrameTimeRef fpsRef screenState errorMessage
       displayFps] in acquired.
  assert (Hacquired : disposes acquired) by exact Hdisposes.
  pose proof (Estimator.init_effects (loader env)
                (PoseWeb.new sessionEstimatorConfig)) as Hlog.
  unfold startSession, setScreenState, setErrorMessage, invoke.
  run_unfold. rewrite Hsupported. cbn [negb]. rewrite Hcamera.
  destruct (PoseWeb.init (loader env) (PoseWeb.new sessionEstimatorConfig))
    as [[result this'] log].
  cbn in Hinit, Hlog. subst result log.
  cbn -[cleanup]. rewrite cleanup_run by exact Hacquired.
  cbn -[cancelEffects disposeEffects releaseEffects detachEffects
        clearEffects cleaned CameraWeb.stop].
  repeat split; reflexivity.
Qed.

Lemma elem_of_map {A B : Type} (f : A -> B) (l : list A) (b : B) :
  b ∈ map f l <-> exists a, b = f a /\ a ∈ l.
Proof. apply (list_elem_of_fmap f l b). Qed.

Lemma not_error_in_cleanup (c : Component) :
  SetScreenState error
    ∉ cancelEffects c ++ disposeEffects c ++ releaseEffects c
      ++ detachEffects c ++ clearEffects c.
Proof.
  rewrite !elem_of_app.
  unfold cancelEffects, disposeEffects, releaseEffects, detachEffects,
    clearEffects.
  intros [H|[H|[H|[H|H]]]].
  - destruct (animationFrameRef c); [|by apply elem_of_nil in H].
    apply list_elem_of_singleton in H. discriminate.
  - destruct (estimatorRef c); [|by apply elem_of_nil in H].
    apply elem_of_map in H as (? & ? & _). discriminate.
  - destruct (stopCameraRef c); [|by apply elem_of_nil in H].
    apply elem_of_map in H as (? & ? & _). discriminate.
  - destruct (videoRef c) as [[? ? []]|]; try by apply elem_of_nil in H.
    apply list_elem_of_singleton in H. discriminate.
  - destruct (canvasRef c) as [[? ? []]|]; try by apply elem_of_nil in H.
    apply list_elem_of_singleton in H. discriminate.
Qed.

(** C6.  When camera acquisition succeeds and the estimator's [init()]
    then rejects, the start sequence releases the camera through the
    cleanup routine before the screen goes to [error]: the effects of the
    call end with the one and only transition to [error], and the whole
    [stop()] of the acquired camera, with the stop of every one of its
    tracks, comes before it.  The estimator that failed to initialize is
    never stored, so the cleanup disposes only what the component held
    before the start: nothing, whenever the Start button is on screen. *)
Theorem camera_released_before_error (env : Env) (c : Component)
    (camera : CameraWeb.CameraStream) (cause : Thrown) :
  disposes c ->
  CameraWeb.isCameraSupported (navigator env) = true ->
  CameraWeb.startCamera (getUserMedia env) (firstFrame env) sessionCameraConfig
    = Returned camera ->
  outcome (PoseWeb.init (loader env) (PoseWeb.new sessionEstimatorConfig))
    = Threw cause ->
  (exists before after,
     effects (startSession env c)
       = before ++ map Camera (CameraWeb.stop camera) ++ after
         ++ [SetScreenState error]
     /\ SetScreenState error
          ∉ before ++ map Camera (CameraWeb.stop camera) ++ after)
  /\ (forall track,
        track ∈ CameraWeb.getTracks (CameraWeb.stream camera) ->
        Camera (CameraWeb.TrackStop track)
          ∈ map Camera (CameraWeb.stop camera))
  /\ outcome (startSession env c) = Returned tt
  /\ screenState (final (startSession env c)) = error
  /\ stopCameraRef (final (startSession env c)) = None.
Proof.
  intros Hdisposes Hsupported Hcamera Hinit.
  destruct (startSession_init_rejected env c camera cause
              Hdisposes Hsupported Hcamera Hinit)
    as (Heffects & Houtcome & Hscreen & _ & Hstop & _).
  set (acquired := mkComponent _ _ _ _ _ _ _ _ _ _ _) in Heffects.
  split; [|split; [|done]].
  - exists ([SetScreenState loading; SetErrorMessage ""]
            ++ cancelEffects acquired ++ disposeEffects acquired),
           (detachEffects acquired ++ clearEffects acquired
            ++ [SetErrorMessage (shownMessage cause)]).
    split.
    + rewrite Heffects. by rewrite <- !app_assoc.
    + pose proof (not_error_in_cleanup acquired) as Hclean.
      change (releaseEffects acquired)
        with (map Camera (CameraWeb.stop camera)) in Hclean.
      rewrite !elem_of_app in Hclean. rewrite !elem_of_app.
      rewrite !elem_of_cons, elem_of_nil.
      intros [[[?|[?|[]]]|[?|?]]|[?|[?|[?|[?|[]]]]]];
        try discriminate; apply Hclean; eauto.
  - intros track Hin. apply elem_of_map.
    exists (CameraWeb.TrackStop track). split; [done|].
    unfold CameraWeb.stop. apply elem_of_app. left.
    apply elem_of_map. by exists track.
Qed.

Lemma camera_released_before_error_witness :
  let offline :=
    PoseWeb.mkLoader (fun _ => Threw (ErrorObject "Failed to fetch"))
                     (fun _ _ => Threw (NonError "not reached")) in
  let env :=
    mkEnv (Some (CameraWeb.mkNavigator (Some (CameraWeb.mkMediaDevices true))))
          (fun _ => Returned (CameraWeb.mkStream [1%nat; 2%nat]))
          (fun _ => mkVideo 640 480 false) offline 1000 5 in
  let mounted :=
    mkComponent None (Some (mkCanvas 300 150 true)) true None None None
      0 0 idle "" 0 in
  effects (startSession env mounted)
    = [ SetScreenState loading; SetErrorMessage "";
        Camera (CameraWeb.TrackStop 1); Camera (CameraWeb.TrackStop 2);
        Camera CameraWeb.VideoPause; Camera CameraWeb.VideoClearSrcObject;
        Draw (ClearRect 0 0 300 150);
        SetErrorMessage
          "Failed to initialize MediaPipe PoseEstimator: Failed to fetch";
        SetScreenState error ]
  /\ screenState (final (startSession env mounted)) = error.
Proof.
  intros offline env mounted.
  destruct (camera_released_before_error env mounted
              (CameraWeb.mkCameraStream (mkVideo 640 480 false)
                 (CameraWeb.mkStream [1%nat; 2%nat]))
              (ErrorObject
                 "Failed to initialize MediaPipe PoseEstimator: Failed to fetch")
              ltac:(intros held; discriminate) eq_refl eq_refl eq_refl)
    as (_ & _ & _ & Hscreen & _).
  split; [reflexivity | exact Hscreen].
Defined.

(** *** The per-frame step *)

Lemma detectPose_keeps_this (video : HTMLVideoElement) (timestamp : number)
    (this : PoseWeb.MediaPipePoseEstimator) :
  final (PoseWeb.detectPose video timestamp this) = this
  /\ effects (PoseWeb.detectPose video timestamp this) = [].
Proof.
  unfold PoseWeb.detectPose. run_unfold.
  destruct (bool_decide _); [done|].
  destruct (PoseWeb.landmarker this) as [engine|]; [|done].
  destruct (_ || _); [done|].
  destruct (PoseWeb.detectForVideo engine video timestamp) as [result|];
    [|done].
  by destruct (PoseWeb.firstPose (PoseWeb.resultWorldLandmarks result)),
              (PoseWeb.firstPose (PoseWeb.resultLandmarks result)).
Qed.

Lemma processFrame_live (c : Component) (timestamp : number) (nextHandle : nat)
    (estimator : PoseWeb.MediaPipePoseEstimator) (video : HTMLVideoElement)
    (canvas : HTMLCanvasElement) (result : option PoseWeb.PoseResult) :
  estimatorRef c = Some estimator ->
  videoRef c = Some video ->
  canvasRef c = Some canvas ->
  context2d canvas = true ->
  outcome (PoseWeb.detectPose video timestamp estimator) = Returned result ->
  let fps := smoothed (fpsRef c) (Js.sub timestamp (lastFrameTimeRef c)) in
  processFrame timestamp nextHandle c =
    (Returned tt,
     mkComponent (videoRef c) (canvasRef c) (containerRef c) (Some estimator)
       (stopCameraRef c) (Some nextHandle) timestamp fps (screenState c)
       (errorMessage c) (displayFps c),
     map Draw (DrawLandmarks.drawSkeleton (surface canvas)
                 (landmarksArgument result) DrawLandmarks.noOverrides)
     ++ map Draw (DrawLandmarks.drawFPS fps)
     ++ [RequestAnimationFrame nextHandle]).
Proof.
  destruct c as [v cv ct est stop af last fps0 st msg dfps].
  cbn [videoRef canvasRef containerRef estimatorRef stopCameraRef
       animationFrameRef lastFrameTimeRef fpsRef screenState errorMessage
       displayFps].
  intros -> -> -> Hctx Hdetect. unfold smoothed.
  destruct (detectPose_keeps_this video timestamp estimator) as [Hthis Hlog].
  unfold processFrame, invoke. run_unfold.
  cbn [videoRef canvasRef containerRef estimatorRef stopCameraRef
       animationFrameRef lastFrameTimeRef fpsRef screenState errorMessage
       displayFps].
  rewrite Hctx. cbn [negb].
  destruct (PoseWeb.detectPose video timestamp estimator)
    as [[detected this'] log].
  cbn in Hdetect, Hthis, Hlog. subst detected this' log.
  cbn -[DrawLandmarks.drawSkeleton DrawLandmarks.drawFPS Js.sub Js.add Js.mul
        Js.div literal gtb].
  destruct (gtb (Js.sub timestamp last) 0);
    cbn -[DrawLandmarks.drawSkeleton DrawLandmarks.drawFPS Js.sub Js.add
          Js.mul Js.div literal];
    by rewrite ?app_nil_r.
Qed.

(** A frame callback that does not run to its end (a ref is unset, there
    is no context, or the engine throws) leaves the component as it is. *)
Lemma processFrame_fps_kept (c : Component) (timestamp : number)
    (nextHandle : nat) :
  frameRuns c timestamp
  \/ final (processFrame timestamp nextHandle c) = c.
Proof.
  destruct c as [v cv ct est stop af last fps0 st msg dfps].
  destruct est as [estimator|]; [|by right].
  destruct v as [video|]; [|by right].
  destruct cv as [[cw ch [|]]|]; [|by right|by right].
  destruct (outcome (PoseWeb.detectPose video timestamp estimator))
    as [result|thrown] eqn:Hdetect.
  - left. exists estimator, video, (mkCanvas cw ch true), result.
    by repeat split.
  - right. unfold processFrame, invoke. run_unfold.
    cbn [videoRef canvasRef estimatorRef context2d negb].
    destruct (PoseWeb.detectPose video timestamp estimator)
      as [[detected this'] log].
    cbn in Hdetect. by subst detected.
Qed.

(** C7.  The per-frame update of the smoothed rate is exponential
    smoothing, in the arithmetic of the machine: with previous value S and
    the instantaneous rate r = 1000 / deltaMs of a frame that runs to its
    end, the new value is S * 0.9 + r * 0.1, each operation giving the
    nearest binary64 value (S, deltaMs and r being in the range in which
    no step overflows); S = 30 and r = 60 give 33 exactly; when the delta
    between frames is zero or negative the smoothed value is kept. *)
Theorem fps_smoothing (c : Component) (timestamp : number) (nextHandle : nat) :
  let S := fpsRef c in
  let deltaMs := Js.sub timestamp (lastFrameTimeRef c) in
  let r := Js.div 1000 deltaMs in
  let S' := fpsRef (final (processFrame timestamp nextHandle c)) in
  (frameRuns c timestamp -> 0 < deltaMs ->
   inRange S -> inRange deltaMs -> inRange r ->
     S' = Js.add (Js.mul S (literal 0.9)) (Js.mul r (literal 0.1)))
  /\ Js.add (Js.mul 30 (literal 0.9)) (Js.mul 60 (literal 0.1)) = 33
  /\ (deltaMs <= 0 -> S' = S).
Proof.
  intros S deltaMs r S'. split; [|split].
  - intros (estimator & video & canvas & result & He & Hv & Hc & Hctx & Hd)
           Hpos _ _ _.
    subst S'. rewrite (processFrame_live c timestamp nextHandle
                         estimator video canvas result) by done.
    cbn [final fst snd fpsRef]. unfold smoothed. fold deltaMs S.
    apply gtb_gt in Hpos. by rewrite Hpos.
  - by vm_compute.
  - intros Hle. subst S'.
    destruct (processFrame_fps_kept c timestamp nextHandle)
      as [(estimator & video & canvas & result & He & Hv & Hc & Hctx & Hd)
         | ->]; [|done].
    rewrite (processFrame_live c timestamp nextHandle
               estimator video canvas result) by done.
    cbn [final fst snd fpsRef]. unfold smoothed. fold deltaMs S.
    apply gtb_le in Hle. by rewrite Hle.
Qed.

(** A frame at 1016.6666666666666 ms (the binary64 value nearest to
    1000 + 50/3) after one at 1000 ms, with the smoothed rate at 30: the
    delta is 16.66666666666663, the instantaneous rate 60.000000000000135,
    and the stored rate 33.000000000000014. *)
Lemma fps_smoothing_witness :
  let engine :=
    PoseWeb.mkLandmarker 1
      (fun _ _ => Returned (PoseWeb.mkResult (Some []) (Some [])))
      (Returned tt) in
  let estimator :=
    PoseWeb.mkEstimator (Some engine) PoseWeb.ready PoseWeb.DEFAULT_CONFIG in
  let c :=
    mkComponent (Some (mkVideo 640 480 true)) (Some (mkCanvas 640 480 true))
      true (Some estimator) None (Some 5%nat) 1000 30 running "" 0 in
  let timestamp := 8942694572578133 # 8796093022208 in
  Js.sub timestamp 1000 = 146601550370133 # 8796093022208
  /\ Js.div 1000 (Js.sub timestamp 1000) = 8444249301319699 # 140737488355328
  /\ fpsRef (final (processFrame timestamp 6 c))
     = 2322168557862913 # 70368744177664.
Proof.
  intros engine estimator c timestamp.
  split; [by vm_compute|]. split; [by vm_compute|].
  pose proof (fps_smoothing c timestamp 6) as Hclaim. cbv zeta in Hclaim.
  destruct Hclaim as [Hlaw _].
  rewrite Hlaw.
  - by vm_compute.
  - exists estimator, (mkVideo 640 480 true), (mkCanvas 640 480 true), None.
    repeat split; reflexivity.
  - by vm_compute.
  - by vm_compute.
  - by vm_compute.
  - by vm_compute.
Defined.

(** *** Stopping *)


(** X21.  The Stop button runs the whole cleanup before it leaves the
    running state.  When nothing stops the cleanup, the releases come
    first, then the screen goes to [idle] and the displayed rate to 0,
    with no estimator, camera or pending frame left.  When the engine of
    the held estimator throws from [close()], the exception leaves the
    handler: the pending frame has been cancelled and [close()] called,
    and nothing else has happened; the camera is not stopped and is still
    held, the estimator is still referenced, and the screen state is what
    it was. *)
Lemma stopPressed_run (c : Component) :
  (disposes c ->
   effects (stopPressed c)
     = (cancelEffects c ++ disposeEffects c ++ releaseEffects c
        ++ detachEffects c ++ clearEffects c)
       ++ [SetScreenState idle; SetDisplayFps 0]
   /\ outcome (stopPressed c) = Returned tt
   /\ estimatorRef (final (stopPressed c)) = None
   /\ stopCameraRef (final (stopPressed c)) = None
   /\ animationFrameRef (final (stopPressed c)) = None
   /\ screenState (final (stopPressed c)) = idle)
  /\ (forall estimator engine thrown,
        estimatorRef c = Some estimator ->
        PoseWeb.landmarker estimator = Some engine ->
        PoseWeb.close engine = Threw thrown ->
        outcome (stopPressed c) = Threw thrown
        /\ effects (stopPressed c)
           = cancelEffects c
             ++ [Engine (PoseWeb.LandmarkerClose (PoseWeb.handle engine))]
        /\ screenState (final (stopPressed c)) = screenState c
        /\ displayFps (final (stopPressed c)) = displayFps c
        /\ stopCameraRef (final (stopPressed c)) = stopCameraRef c
        /\ videoRef (final (stopPressed c)) = videoRef c
        /\ estimatorRef (final (stopPressed c)) = Some estimator
        /\ animationFrameRef (final (stopPressed c)) = None).
Proof.
  split.
  - intros Hdisposes.
    unfold stopPressed, setScreenState, setDisplayFps. run_unfold.
    rewrite cleanup_run by done. by repeat split.
  - intros estimator engine thrown He Hengine Hclose.
    pose proof (Estimator.dispose_throws estimator engine thrown
                  Hengine Hclose) as Hdispose.
    unfold stopPressed, setScreenState, setDisplayFps. run_unfold.
    rewrite (cleanup_throws c estimator thrown He)
      by (by rewrite Hdispose).
    unfold disposeEffects. rewrite He, Hdispose.
    cbn [outcome final effects fst snd map].
    destruct c as [v cv ct est stop af last fps st msg dfps].
    cbn [estimatorRef] in He. subst est. by repeat split.
Qed.

(** Stop on a running screen whose engine throws from [close()]: the
    screen stays [running] and the camera stays on. *)
Lemma stopPressed_run_witness :
  let engine :=
    PoseWeb.mkLandmarker 1
      (fun _ _ => Returned (PoseWeb.mkResult (Some []) (Some [])))
      (Threw (ErrorObject "WebGL context lost")) in
  let estimator :=
    PoseWeb.mkEstimator (Some engine) PoseWeb.ready PoseWeb.DEFAULT_CONFIG in
  let camera :=
    CameraWeb.mkCameraStream (mkVideo 640 480 true) (CameraWeb.mkStream [1%nat]) in
  let c :=
    mkComponent (Some (mkVideo 640 480 true)) (Some (mkCanvas 640 480 true))
      true (Some estimator) (Some camera) (Some 5%nat) 1000 30 running "" 30 in
  effects (stopPressed c)
    = [CancelAnimationFrame 5; Engine (PoseWeb.LandmarkerClose 1)]
  /\ screenState (final (stopPressed c)) = running
  /\ stopCameraRef (final (stopPressed c)) = Some camera.
Proof.
  intros engine estimator camera c.
  destruct (stopPressed_run c) as [_ Hthrows].
  destruct (Hthrows estimator engine (ErrorObject "WebGL context lost")
              eq_refl eq_refl eq_refl)
    as (_ & Heffects & Hscreen & _ & Hcamera & _).
  split; [exact Heffects | split; [exact Hscreen | exact Hcamera]].
Defined.

End FrameLoop.

(** ** The scenarios of the repository's test suite *)

Module TestSuite.

Import DrawLandmarks TestFixtures.

Example clears_the_canvas_on_every_call :
  ClearRect 0 0 640 480 ∈ drawSkeleton mockContext None noOverrides.
Proof. apply list_elem_of_here. Qed.

Example draws_nothing_when_null_or_empty :
  List.filter isArc (drawSkeleton mockContext None noOverrides) = []
  /\ List.filter isArc (drawSkeleton mockContext (Some []) noOverrides) = [].
Proof. by split. Qed.

Example skips_landmarks_below_threshold :
  List.filter isArc (drawSkeleton mockContext (Some (uniform 0.1)) noOverrides)
    = [].
Proof. by vm_compute. Qed.

Example draws_connections_between_visible_landmarks :
  length (List.filter isStroke
            (drawSkeleton mockContext (Some (uniform 0.9)) noOverrides))
    = length SKELETON_CONNECTIONS.
Proof. by vm_compute. Qed.

Example respects_custom_threshold :
  List.filter isArc
    (drawSkeleton mockContext (Some (uniform 0.5)) (onlyThreshold 0.8)) = [].
Proof. by vm_compute. Qed.

(** Two landmarks at 0.9 and the others at 0.1: the two dots are drawn
    (two circles each) and no connection is. *)
Example two_visible_landmarks :
  length (List.filter isArc
            (drawSkeleton mockContext (Some (createTestLandmarks 33)) noOverrides))
    = 4%nat
  /\ List.filter isStroke
       (drawSkeleton mockContext (Some (createTestLandmarks 33)) noOverrides)
     = [].
Proof. split; by vm_compute. Qed.

Example draws_the_fps_counter :
  drawFPS 30
    = [ Save; Scale (-1) 1;
        SetFillStyle "rgba(0, 0, 0, 0.5)"; FillRect (-98) 8 90 32;
        SetFillStyle "#22c55e"; SetFont "bold 16px monospace";
        FillText "30 FPS" (-90) 30; Restore ].
Proof. by vm_compute. Qed.

Example rounds_the_fps_value :
  FillText "30 FPS" (-90) 30 ∈ drawFPS 29.7.
Proof. vm_compute. do 6 apply list_elem_of_further. apply list_elem_of_here. Qed.

End TestSuite.

(** ** The overlay renderer: order and counts *)

Module RendererLaws.

Import DrawLandmarks RendererTerms RendererCounts DrawLandmarksFacts
  OverlayRenderer.

Lemma shown_iff (cfg : DrawConfig) (lm : NormalizedLandmark) :
  shown cfg (Some lm) = true <-> visibilityThreshold cfg <= visibilityOf lm.
Proof. apply Qle_bool_iff. Qed.

Lemma shown_false (cfg : DrawConfig) (lm : NormalizedLandmark) :
  shown cfg (Some lm) = false <-> visibilityOf lm < visibilityThreshold cfg.
Proof.
  cbn [shown]. rewrite <- not_true_iff_false, Qle_bool_iff. split.
  - apply Qnot_le_lt.
  - apply Qlt_not_le.
Qed.

Lemma drawLandmark_no_segment (cfg : DrawConfig) (w h : number)
    (e : option NormalizedLandmark) (op : Op) :
  op ∈ drawLandmark cfg w h e -> isSegmentOp op = false.
Proof.
  destruct e as [lm|]; cbn [drawLandmark]; [|by intros ?%elem_of_nil].
  destruct (ltb _ _); [by intros ?%elem_of_nil|].
  rewrite !elem_of_cons, elem_of_nil.
  intros [->|[->|[->|[->|[->|[->|[->|[->|[]]]]]]]]]; reflexivity.
Qed.

Lemma drawConnection_not_arc (cfg : DrawConfig) (w h : number)
    (lms : list (option NormalizedLandmark)) (connection : nat * nat) (op : Op) :
  op ∈ drawConnection cfg w h lms connection -> isArc op = false.
Proof.
  destruct connection as [s e]. unfold drawConnection.
  destruct (elementAt lms s), (elementAt lms e);
    try by intros ?%elem_of_nil.
  destruct (_ || _); [by intros ?%elem_of_nil|].
  rewrite !elem_of_cons, elem_of_nil.
  intros [->|[->|[->|[->|[]]]]]; reflexivity.
Qed.

(** In a list made of a part without circles followed by a part without
    path operations, no path operation comes after a circle. *)
Lemma no_segment_after_arc (lines dots before after : list Op)
    (circle later : Op) :
  (forall op, op ∈ lines -> isArc op = false) ->
  (forall op, op ∈ dots -> isSegmentOp op = false) ->
  lines ++ dots = before ++ after ->
  circle ∈ before -> isArc circle = true ->
  later ∈ after -> isSegmentOp later = false.
Proof.
  intros Hlines Hdots Hsplit Hcircle Harc Hlater.
  apply app_eq_app in Hsplit as [mid [[Hhead _] | [_ Htail]]].
  - assert (Hin : circle ∈ lines)
      by (rewrite Hhead; apply elem_of_app; by left).
    apply Hlines in Hin. congruence.
  - apply Hdots. rewrite Htail. apply elem_of_app. by right.
Qed.

(** X1.  Connections are drawn underneath the dots: once a circle has been
    drawn in a call, no operation of a connection path (moveTo, lineTo,
    stroke) follows it. *)
Theorem connections_before_dots (ctx : Surface)
    (normalizedLandmarks : option (list (option NormalizedLandmark)))
    (config : PartialDrawConfig) (before after : list Op) (circle later : Op) :
  drawSkeleton ctx normalizedLandmarks config = before ++ after ->
  circle ∈ before -> isArc circle = true ->
  later ∈ after -> isSegmentOp later = false.
Proof.
  intros Hsplit.
  assert (Hshape : exists lines dots,
            drawSkeleton ctx normalizedLandmarks config = lines ++ dots
            /\ (forall op, op ∈ lines -> isArc op = false)
            /\ (forall op, op ∈ dots -> isSegmentOp op = false)).
  { destruct normalizedLandmarks as [lms|].
    2:{ exists [ClearRect 0 0 (width ctx) (height ctx)], []. split; [done|].
        split; [|by intros ? ?%elem_of_nil].
        by intros op ->%list_elem_of_singleton. }
    assert (Hcases : lms = [] \/ lms <> [])
      by (destruct lms; [by left | by right]).
    destruct Hcases as [-> | Hne].
    { exists [ClearRect 0 0 (width ctx) (height ctx)], []. split; [done|].
      split; [|by intros ? ?%elem_of_nil].
      by intros op ->%list_elem_of_singleton. }
    rewrite drawSkeleton_nonempty by done. cbn zeta.
    set (cfg := spread DEFAULT_DRAW_CONFIG config).
    exists ([ClearRect 0 0 (width ctx) (height ctx);
             SetStrokeStyle (connectionColor cfg);
             SetLineWidth (connectionLineWidth cfg); SetLineCap "round"]
            ++ flat_map (drawConnection cfg (width ctx) (height ctx) lms)
                 SKELETON_CONNECTIONS),
           (flat_map (drawLandmark cfg (width ctx) (height ctx)) lms).
    split; [by rewrite <- app_assoc|]. split.
    - intros op [Hop | Hop]%elem_of_app.
      + rewrite !elem_of_cons, elem_of_nil in Hop.
        by destruct Hop as [->|[->|[->|[->|[]]]]].
      + apply elem_of_flat_map in Hop as (connection & _ & Hop).
        by eapply drawConnection_not_arc.
    - intros op (e & _ & Hop)%elem_of_flat_map.
      by eapply drawLandmark_no_segment. }
  destruct Hshape as (lines & dots & Heq & Hlines & Hdots).
  rewrite Heq in Hsplit.
  by apply (no_segment_after_arc lines dots before after circle later).
Qed.

Lemma connections_before_dots_witness :
  let lms := replicate 13 (Some (mkNormalizedLandmark 0.5 0.5 (Some 0.9))) in
  let ops := drawSkeleton (mkSurface 640 480) (Some lms) noOverrides in
  isSegmentOp (List.last ops Fill) = false.
Proof.
  intros lms ops.
  apply (connections_before_dots (mkSurface 640 480) (Some lms) noOverrides
           (take 26 ops) (drop 26 ops) (Arc (0.5 * 640) (0.5 * 480) (6 + 1))
           (List.last ops Fill)).
  - symmetry. apply take_drop.
  - vm_compute. do 25 apply list_elem_of_further. apply list_elem_of_here.
  - reflexivity.
  - vm_compute. do 101 apply list_elem_of_further. apply list_elem_of_here.
Defined.

(** *** Counting circles and strokes *)

Lemma filter_flat_map_nil {A : Type} (p : Op -> bool) (f : A -> list Op)
    (l : list A) :
  (forall a op, op ∈ f a -> p op = false) ->
  List.filter p (flat_map f l) = [].
Proof.
  intros Hnone. induction l as [|a l IH]; [done|].
  cbn [flat_map]. rewrite List.filter_app, IH, app_nil_r.
  assert (Hall : forall ops, (forall op, op ∈ ops -> p op = false) ->
                             List.filter p ops = []).
  { induction ops as [|op ops IHops]; [done|]. intros Hops. cbn.
    rewrite (Hops op) by apply list_elem_of_here.
    apply IHops. intros op' Hop'. apply Hops. by apply list_elem_of_further. }
  apply Hall. intros op. apply Hnone.
Qed.

Lemma arcs_of_dots (cfg : DrawConfig) (w h : number)
    (lms : list (option NormalizedLandmark)) :
  length (List.filter isArc (flat_map (drawLandmark cfg w h) lms))
    = (2 * length (List.filter (shown cfg) lms))%nat.
Proof.
  induction lms as [|e lms IH]; [done|].
  cbn [flat_map List.filter]. rewrite List.filter_app, length_app, IH.
  destruct e as [lm|]; [|done].
  destruct (shown cfg (Some lm)) eqn:Hshown.
  - apply shown_iff in Hshown.
    rewrite (drawLandmark_shown cfg w h lm Hshown). cbn. lia.
  - apply shown_false in Hshown.
    by rewrite (drawLandmark_hidden cfg w h lm Hshown).
Qed.

Lemma strokes_of_connections (cfg : DrawConfig) (w h : number)
    (lms : list (option NormalizedLandmark)) (connections : list (nat * nat)) :
  length (List.filter isStroke
            (flat_map (drawConnection cfg w h lms) connections))
    = length (List.filter (joined cfg lms) connections).
Proof.
  induction connections as [|[s e] connections IH]; [done|].
  cbn [flat_map List.filter]. rewrite List.filter_app, length_app, IH.
  unfold joined at 2. cbn [fst snd].
  destruct (elementAt lms s) as [ls|] eqn:Hs.
  2:{ unfold drawConnection. by rewrite Hs. }
  destruct (elementAt lms e) as [le|] eqn:He.
  2:{ unfold drawConnection. rewrite Hs, He.
      by rewrite andb_false_r. }
  destruct (shown cfg (Some ls)) eqn:Hls.
  2:{ apply shown_false in Hls.
      by rewrite (drawConnection_hidden_start cfg w h lms s e ls). }
  destruct (shown cfg (Some le)) eqn:Hle.
  2:{ apply shown_false in Hle.
      by rewrite (drawConnection_hidden_end cfg w h lms s e le). }
  apply shown_iff in Hls, Hle.
  by rewrite (drawConnection_shown cfg w h lms s e ls le).
Qed.

Lemma counts (ctx : Surface) (lms : list (option NormalizedLandmark))
    (config : PartialDrawConfig) :
  let cfg := spread DEFAULT_DRAW_CONFIG config in
  let ops := drawSkeleton ctx (Some lms) config in
  length (List.filter isArc ops) = (2 * length (List.filter (shown cfg) lms))%nat
  /\ length (List.filter isStroke ops)
     = length (List.filter (joined cfg lms) SKELETON_CONNECTIONS).
Proof.
  intros cfg ops. subst ops.
  assert (Hcases : lms = [] \/ lms <> [])
    by (destruct lms; [by left | by right]).
  destruct Hcases as [-> | Hne]; [by vm_compute|].
  rewrite drawSkeleton_nonempty by done. cbn zeta. fold cfg.
  cbn [List.filter isArc isStroke app].
  rewrite !List.filter_app, !length_app.
  rewrite arcs_of_dots, strokes_of_connections. split.
  - rewrite (filter_flat_map_nil isArc); [done|].
    intros connection op. apply drawConnection_not_arc.
  - rewrite (filter_flat_map_nil isStroke
               (drawLandmark cfg (width ctx) (height ctx)));
      [cbn [length]; lia|].
    intros e op Hop. apply drawLandmark_no_segment in Hop.
    by destruct op.
Qed.

(** X2.  Each landmark that reaches the threshold is drawn as exactly two
    circles and nothing else is: a call issues twice as many arcs as the
    array has such landmarks, and as many strokes as the table has
    connections with both endpoints among them ([null] counting as the
    empty array). *)
Theorem two_circles_per_landmark (ctx : Surface)
    (normalizedLandmarks : option (list (option NormalizedLandmark)))
    (config : PartialDrawConfig) :
  let cfg := spread DEFAULT_DRAW_CONFIG config in
  let lms := default [] normalizedLandmarks in
  let ops := drawSkeleton ctx normalizedLandmarks config in
  length (List.filter isArc ops) = (2 * length (List.filter (shown cfg) lms))%nat
  /\ length (List.filter isStroke ops)
     = length (List.filter (joined cfg lms) SKELETON_CONNECTIONS).
Proof.
  intros cfg lms ops. destruct normalizedLandmarks as [given|].
  - apply counts.
  - subst ops lms. rewrite drawSkeleton_null. split; [done|].
    cbn [List.filter isStroke length default].
    induction SKELETON_CONNECTIONS as [|[s e] connections IH]; [done|].
    cbn [List.filter]. unfold joined, elementAt at 1. cbn [fst snd].
    by rewrite lookup_nil.
Qed.

(** Every index of the connection table is a landmark index. *)
Lemma connections_in_range :
  Forall (fun connection : nat * nat =>
            (connection.1 < 33)%nat /\ (connection.2 < 33)%nat)
         SKELETON_CONNECTIONS.
Proof. repeat constructor. Qed.

(** X3.  On a complete detection (33 landmarks, none missing) in which
    every landmark reaches the threshold, the whole skeleton is drawn: all
    22 connections of the table and all 33 dots. *)
Theorem full_skeleton (ctx : Surface) (lms : list (option NormalizedLandmark))
    (config : PartialDrawConfig) :
  let cfg := spread DEFAULT_DRAW_CONFIG config in
  let ops := drawSkeleton ctx (Some lms) config in
  length lms = 33%nat ->
  (forall e, e ∈ lms -> shown cfg e = true) ->
  length (List.filter isStroke ops) = 22%nat
  /\ length (List.filter isArc ops) = 66%nat.
Proof.
  intros cfg ops Hlen Hall.
  destruct (counts ctx lms config) as [Harcs Hstrokes].
  fold cfg ops in Harcs, Hstrokes. rewrite Harcs, Hstrokes. split.
  - assert (Hjoined : forall connections,
              Forall (fun c : nat * nat => (c.1 < 33)%nat /\ (c.2 < 33)%nat)
                     connections ->
              List.filter (joined cfg lms) connections = connections).
    { induction 1 as [|[s e] connections [Hs He] _ IH]; [done|].
      cbn [List.filter fst snd] in *. rewrite IH.
      assert (Hat : forall i, (i < 33)%nat ->
                shown cfg (elementAt lms i) = true).
      { intros i Hi. rewrite <- Hlen in Hi.
        apply lookup_lt_is_Some in Hi as [x Hx]. unfold elementAt.
        rewrite Hx. apply Hall. by eapply list_elem_of_lookup_2. }
      unfold joined. cbn [fst snd]. by rewrite !Hat. }
    by rewrite (Hjoined _ connections_in_range).
  - assert (Hfilter : List.filter (shown cfg) lms = lms).
    { clear Hlen Harcs Hstrokes ops.
      induction lms as [|e lms IH]; [done|]. cbn.
      rewrite (Hall e) by apply list_elem_of_here. f_equal. apply IH.
      intros e' He'. apply Hall. by apply list_elem_of_further. }
    rewrite Hfilter, Hlen. reflexivity.
Qed.

Lemma full_skeleton_witness :
  let lms := replicate 33 (Some (mkNormalizedLandmark 0.5 0.5 (Some 0.3))) in
  let ops := drawSkeleton (mkSurface 640 480) (Some lms) noOverrides in
  length (List.filter isStroke ops) = 22%nat
  /\ length (List.filter isArc ops) = 66%nat.
Proof.
  intros lms ops.
  apply (full_skeleton (mkSurface 640 480) lms noOverrides).
  - reflexivity.
  - intros e He. apply elem_of_replicate in He as [-> _]. reflexivity.
Defined.

(** *** Colours *)








(** *** Styling overrides *)

Lemma drawConnection_threshold_only (cfg1 cfg2 : DrawConfig) (w h : number)
    (lms : list (option NormalizedLandmark)) (connection : nat * nat) :
  visibilityThreshold cfg1 = visibilityThreshold cfg2 ->
  drawConnection cfg1 w h lms connection = drawConnection cfg2 w h lms connection.
Proof.
  intros Hthreshold. destruct connection as [s e]. unfold drawConnection.
  by rewrite Hthreshold.
Qed.

Lemma segments_of_dots (cfg : DrawConfig) (w h : number)
    (lms : list (option NormalizedLandmark)) :
  List.filter isSegmentOp (flat_map (drawLandmark cfg w h) lms) = [].
Proof.
  apply filter_flat_map_nil. intros e op. apply drawLandmark_no_segment.
Qed.

(** X23.  Styling overrides cannot hide or move a connection: two
    configurations with the same visibility threshold, whatever their
    colours, radius and line width, produce the same path operations, in
    the same order and at the same coordinates. *)
Theorem styling_keeps_connections (ctx : Surface)
    (normalizedLandmarks : option (list (option NormalizedLandmark)))
    (config1 config2 : PartialDrawConfig) :
  visibilityThreshold' config1 = visibilityThreshold' config2 ->
  List.filter isSegmentOp (drawSkeleton ctx normalizedLandmarks config1)
    = List.filter isSegmentOp (drawSkeleton ctx normalizedLandmarks config2).
Proof.
  intros Hthreshold. destruct normalizedLandmarks as [lms|]; [|done].
  assert (Hcases : lms = [] \/ lms <> [])
    by (destruct lms; [by left | by right]).
  destruct Hcases as [-> | Hne]; [done|].
  rewrite !drawSkeleton_nonempty by done. cbn zeta.
  cbn [List.filter isSegmentOp app].
  rewrite !List.filter_app, !segments_of_dots, !app_nil_r. f_equal.
  apply flat_map_ext. intros connection.
  apply drawConnection_threshold_only. cbn [spread visibilityThreshold].
  by rewrite Hthreshold.
Qed.

Lemma styling_keeps_connections_witness :
  let lms := replicate 33 (Some (mkNormalizedLandmark 0.5 0.5 (Some 0.9))) in
  let thick :=
    mkPartialDrawConfig (Some 12) (Some 8) None None None (Some "#000000") None in
  List.filter isSegmentOp (drawSkeleton (mkSurface 640 480) (Some lms) thick)
    = List.filter isSegmentOp
        (drawSkeleton (mkSurface 640 480) (Some lms) noOverrides).
Proof.
  intros lms thick.
  apply (styling_keeps_connections (mkSurface 640 480) (Some lms) thick
           noOverrides eq_refl).
Defined.

End RendererLaws.

(** ** The landmark estimator: life cycle and results *)

Module EstimatorLaws.

Import Dom PoseWeb EstimatorTerms EstimatorCalls Estimator.

Lemma detectPose_observes (videoElement : HTMLVideoElement)
    (timestampMs : number) (this : MediaPipePoseEstimator) :
  final (detectPose videoElement timestampMs this) = this
  /\ effects (detectPose videoElement timestampMs this) = [].
Proof.
  unfold detectPose. run_unfold.
  destruct (bool_decide _); [done|].
  destruct (landmarker this) as [engine|]; [|done].
  destruct (_ || _); [done|].
  destruct (detectForVideo engine videoElement timestampMs) as [result|];
    [|done].
  by destruct (firstPose (resultWorldLandmarks result)),
              (firstPose (resultLandmarks result)).
Qed.

Lemma init_final (loader : Loader) (this : MediaPipePoseEstimator) :
  final (init loader this) = this
  \/ (state this = uninitialized
      /\ (final (init loader this)
            = mkEstimator (landmarker this) uninitialized (config this)
          \/ exists engine,
               final (init loader this)
                 = mkEstimator (Some engine) ready (config this))).
Proof.
  destruct this as [l [] cfg]; try by left.
  right. split; [done|].
  unfold init, setState, setLandmarker. run_unfold. cbn [state config landmarker].
  destruct (forVisionTasks loader WASM_PATH) as [vision|]; [|by left].
  run_unfold.
  destruct (createFromOptions loader vision (landmarkerOptions cfg))
    as [engine|]; [|by left].
  right. by exists engine.
Qed.

(** X6.  The estimator holds an engine exactly when it is ready: this is
    so for a new estimator and stays so through [init()], [detectPose()]
    and [dispose()], whatever the loader and the engine do, a [close()]
    that throws included. *)
Theorem estimator_consistent (config : PartialPoseEstimatorConfig)
    (loader : Loader) (videoElement : HTMLVideoElement) (timestampMs : number)
    (this : MediaPipePoseEstimator) :
  consistent (new config)
  /\ (consistent this ->
      consistent (final (init loader this))
      /\ consistent (final (detectPose videoElement timestampMs this))
      /\ consistent (final (dispose this))).
Proof.
  split.
  { split; [by intros [? [=]] | by intros [=]]. }
  intros Hthis. split; [|split].
  - destruct (init_final loader this)
      as [-> | [Hst [-> | [engine ->]]]]; [done| |].
    + unfold consistent in *. cbn [landmarker state].
      rewrite Hst in Hthis. split; [|by intros [=]].
      intros Hsome. apply Hthis in Hsome. discriminate.
    + split; [done|]. by eexists.
  - by rewrite (proj1 (detectPose_observes videoElement timestampMs this)).
  - destruct (landmarker this) as [engine|] eqn:Hengine.
    + destruct (close engine) as [[]|thrown] eqn:Hclose.
      * rewrite dispose_run
          by (intros held Hheld; rewrite Hengine in Hheld;
              by injection Hheld as <-).
        split; [by intros [? [=]] | by intros [=]].
      * by rewrite (dispose_throws this engine thrown).
    + rewrite dispose_run
        by (intros held Hheld; rewrite Hengine in Hheld; discriminate).
      split; [by intros [? [=]] | by intros [=]].
Qed.

Lemma estimator_consistent_witness :
  let engine :=
    mkLandmarker 1 (fun _ _ => Threw (NonError "engine failure"))
      (Threw (NonError "engine failure")) in
  let this := mkEstimator (Some engine) ready DEFAULT_CONFIG in
  consistent (final (dispose this)).
Proof.
  intros engine this.
  destruct (estimator_consistent (mkPartialConfig None None None None None)
              (mkLoader (fun _ => Threw (NonError "offline"))
                        (fun _ _ => Threw (NonError "offline")))
              (mkVideo 640 480 false) 0 this) as [_ Hkept].
  apply Hkept. split; [reflexivity | intros _; by eexists].
Defined.

(** X7.  Disposal is final: after a [dispose()] that returned, any
    sequence of further calls leaves the estimator as disposal left it and
    touches the engine no more; each [init()] in it throws the disposed
    error, each [detectPose()] returns [null] and each [dispose()]
    returns. *)
Theorem disposed_forever (this : MediaPipePoseEstimator) (calls : list Call) :
  outcome (dispose this) = Returned tt ->
  let gone := final (dispose this) in
  state gone = disposed
  /\ performAll calls gone = (map disposedReply calls, gone, []).
Proof.
  intros Hreturned%dispose_returns. cbn zeta.
  rewrite dispose_run by done. cbn [final fst snd]. split; [done|].
  induction calls as [|call calls IH]; [done|].
  cbn [performAll map].
  assert (Hone : perform call (mkEstimator None disposed (config this))
                 = (disposedReply call,
                    mkEstimator None disposed (config this), [])).
  { destruct call as [loader|video ts|]; reflexivity. }
  by rewrite Hone, IH.
Qed.

Lemma disposed_forever_witness :
  let engine :=
    mkLandmarker 1 (fun _ _ => Returned (mkResult None None)) (Returned tt) in
  let this := mkEstimator (Some engine) ready DEFAULT_CONFIG in
  let calls := [CallDetectPose (mkVideo 640 480 false) 16; CallDispose] in
  performAll calls (final (dispose this))
    = ([DetectPoseReply (Returned None); DisposeReply (Returned tt)],
       mkEstimator None disposed DEFAULT_CONFIG, []).
Proof.
  intros engine this calls.
  destruct (disposed_forever this calls eq_refl) as [_ Hcalls].
  exact Hcalls.
Defined.

(** X8.  A failed [init()] can be retried: from [uninitialized], a load
    that fails followed by a load that succeeds leaves the estimator ready
    and holding the engine of the second load. *)
Theorem init_retry (failing working : Loader) (this : MediaPipePoseEstimator)
    (cause : Thrown) (vision : WasmFileset) (engine : PoseLandmarker) :
  state this = uninitialized ->
  loadFails failing (config this) cause ->
  forVisionTasks working WASM_PATH = Returned vision ->
  createFromOptions working vision (landmarkerOptions (config this))
    = Returned engine ->
  init working (final (init failing this))
    = (Returned tt, mkEstimator (Some engine) ready (config this), []).
Proof.
  intros Hst Hfail Hvision Hcreate.
  rewrite (init_failure failing this cause Hst Hfail). cbn [final fst snd].
  by rewrite (init_success working _ vision engine).
Qed.

Lemma init_retry_witness :
  let engine := mkLandmarker 1 (fun _ _ => Threw (NonError "engine failure"))
      (Returned tt) in
  let failing :=
    mkLoader (fun _ => Threw (ErrorObject "Failed to fetch"))
             (fun _ _ => Returned engine) in
  let working :=
    mkLoader (fun _ => Returned (VisionFileset 0)) (fun _ _ => Returned engine) in
  let this := new (mkPartialConfig None None None None None) in
  init working (final (init failing this))
    = (Returned tt, mkEstimator (Some engine) ready DEFAULT_CONFIG, []).
Proof.
  intros engine failing working this.
  apply (init_retry failing working this (ErrorObject "Failed to fetch")
           (VisionFileset 0) engine eq_refl (or_introl eq_refl) eq_refl eq_refl).
Defined.

(** *** What a detection carries *)

(** X9.  A detection is the first pose of the engine result, landmark for
    landmark and in the same order, in both coordinate spaces: positions
    are copied, an absent visibility becomes 0, the world set carries the
    timestamp of the call, and further poses of the result are ignored. *)
Theorem detectPose_copies_first_pose (this : MediaPipePoseEstimator)
    (videoElement : HTMLVideoElement) (timestampMs : number)
    (engine : PoseLandmarker) (result : PoseLandmarkerResult)
    (world normalized : list EngineLandmark)
    (otherWorld otherNormalized : list (option (list EngineLandmark))) :
  state this = ready ->
  landmarker this = Some engine ->
  ~ videoWidth videoElement == 0 ->
  ~ videoHeight videoElement == 0 ->
  detectForVideo engine videoElement timestampMs = Returned result ->
  resultWorldLandmarks result = Some (Some world :: otherWorld) ->
  resultLandmarks result = Some (Some normalized :: otherNormalized) ->
  world <> [] -> normalized <> [] ->
  exists detection,
    outcome (detectPose videoElement timestampMs this) = Returned (Some detection)
    /\ Shared.timestamp (worldLandmarks detection) = timestampMs
    /\ length (Shared.landmarks (worldLandmarks detection)) = length world
    /\ length (normalizedLandmarks detection) = length normalized
    /\ (forall i lm, world !! i = Some lm ->
          Shared.landmarks (worldLandmarks detection) !! i
            = Some (Shared.mkLandmark (ex lm) (ey lm) (ez lm)
                      (default 0 (evisibility lm))))
    /\ (forall i lm, normalized !! i = Some lm ->
          normalizedLandmarks detection !! i
            = Some (mkImageLandmark (ex lm) (ey lm)
                      (default 0 (evisibility lm)))).
Proof.
  intros Hready Hengine Hw Hh Hcall Hworld Hnormalized Hwne Hnne.
  unfold detectPose. run_unfold.
  rewrite bool_decide_eq_false_2 by (by rewrite Hready; intros []).
  rewrite Hengine.
  assert (Hw' : eqb (videoWidth videoElement) 0 = false)
    by (apply not_true_iff_false; by rewrite eqb_eq).
  assert (Hh' : eqb (videoHeight videoElement) 0 = false)
    by (apply not_true_iff_false; by rewrite eqb_eq).
  rewrite Hw', Hh'. cbn [orb]. rewrite Hcall, Hworld, Hnormalized.
  destruct world as [|w0 world]; [done|].
  destruct normalized as [|n0 normalized]; [done|].
  cbn [firstPose outcome fst].
  eexists. split; [reflexivity|].
  cbn [worldLandmarks normalizedLandmarks Shared.timestamp Shared.landmarks].
  split; [done|]. split; [apply length_map|]. split; [apply length_map|].
  split; intros i lm Hi.
  - change (map ?f ?l) with (f <$> l). by rewrite list_lookup_fmap, Hi.
  - change (map ?f ?l) with (f <$> l). by rewrite list_lookup_fmap, Hi.
Qed.

Lemma detectPose_copies_first_pose_witness :
  let nose := mkEngineLandmark 0.5 0.25 0 None in
  let result := mkResult (Some [Some [nose]]) (Some [Some [nose]; None]) in
  let engine := mkLandmarker 1 (fun _ _ => Returned result)
      (Returned tt) in
  let this := mkEstimator (Some engine) ready DEFAULT_CONFIG in
  exists detection,
    outcome (detectPose (mkVideo 640 480 false) 16 this)
      = Returned (Some detection)
    /\ normalizedLandmarks detection = [mkImageLandmark 0.5 0.25 0].
Proof.
  intros nose result engine this.
  destruct (detectPose_copies_first_pose this (mkVideo 640 480 false) 16
              engine result [nose] [nose] [None] []
              eq_refl eq_refl ltac:(discriminate) ltac:(discriminate)
              eq_refl eq_refl eq_refl ltac:(discriminate) ltac:(discriminate))
    as (detection & Hout & _).
  exists detection. split; [exact Hout|].
  injection Hout as <-. reflexivity.
Defined.

(** X10.  [detectPose()] only observes: whatever the engine does, the call
    leaves the estimator as it was and releases nothing; and when the
    engine throws on a frame, the call throws the very same value. *)
Theorem detectPose_observer (this : MediaPipePoseEstimator)
    (videoElement : HTMLVideoElement) (timestampMs : number) :
  final (detectPose videoElement timestampMs this) = this
  /\ effects (detectPose videoElement timestampMs this) = []
  /\ (forall engine thrown,
        state this = ready ->
        landmarker this = Some engine ->
        ~ videoWidth videoElement == 0 ->
        ~ videoHeight videoElement == 0 ->
        detectForVideo engine videoElement timestampMs = Threw thrown ->
        outcome (detectPose videoElement timestampMs this) = Threw thrown).
Proof.
  destruct (detectPose_observes videoElement timestampMs this) as [Hthis Hlog].
  split; [done|]. split; [done|].
  intros engine thrown Hready Hengine Hw Hh Hcall.
  unfold detectPose. run_unfold.
  rewrite bool_decide_eq_false_2 by (by rewrite Hready; intros []).
  rewrite Hengine.
  assert (Hw' : eqb (videoWidth videoElement) 0 = false)
    by (apply not_true_iff_false; by rewrite eqb_eq).
  assert (Hh' : eqb (videoHeight videoElement) 0 = false)
    by (apply not_true_iff_false; by rewrite eqb_eq).
  by rewrite Hw', Hh', Hcall.
Qed.

Lemma detectPose_observer_witness :
  let engine :=
    mkLandmarker 1 (fun _ _ => Threw (ErrorObject "timestamp went backwards"))
      (Returned tt) in
  let this := mkEstimator (Some engine) ready DEFAULT_CONFIG in
  outcome (detectPose (mkVideo 640 480 false) 16 this)
    = Threw (ErrorObject "timestamp went backwards").
Proof.
  intros engine this.
  destruct (detectPose_observer this (mkVideo 640 480 false) 16)
    as (_ & _ & Hthrows).
  apply (Hthrows engine); try reflexivity; discriminate.
Defined.

End EstimatorLaws.

(** ** binary64 rounding *)

Module Binary64.

Lemma pow2_pos (e : Z) : 0 < pow2 e.
Proof. by apply Qpower_0_lt. Qed.

Lemma pow2_inject (e : Z) : (0 <= e)%Z -> inject_Z (2 ^ e) == pow2 e.
Proof. intros He. unfold pow2. by rewrite Zpower_Qpower. Qed.

(** The binary exponent does not overshoot. *)
Lemma exponent_le (x : Q) : 0 < x -> pow2 (exponent x) <= x.
Proof.
  intros Hx. unfold exponent.
  set (a := Z.log2 (Qnum x)). set (b := Z.log2 (QDen x)).
  destruct (Qle_bool (pow2 (a - b)) x) eqn:Htest.
  { by apply Qle_bool_iff. }
  clear Htest.
  assert (Hn : (0 < Qnum x)%Z).
  { destruct x as [n d]. unfold Qlt in Hx. cbn in *. lia. }
  assert (Hd : (0 < QDen x)%Z) by done.
  destruct (Z.log2_spec _ Hn) as [Hna _].
  destruct (Z.log2_spec _ Hd) as [_ Hdb].
  fold a in Hna. fold b in Hdb.
  assert (Ha : (0 <= a)%Z) by apply Z.log2_nonneg.
  assert (Hb : (0 <= b)%Z) by apply Z.log2_nonneg.
  replace (a - b - 1)%Z with (a - (b + 1))%Z by lia.
  unfold pow2. rewrite Qpower_minus by done.
  fold (pow2 a) (pow2 (b + 1)).
  rewrite <- !pow2_inject by lia.
  replace (Z.succ b) with (b + 1)%Z in Hdb by lia.
  rewrite Zle_Qle in Hna. rewrite Zlt_Qlt in Hdb.
  assert (Hx' : x == inject_Z (Qnum x) / inject_Z (QDen x)).
  { destruct x as [n d]. apply Qmake_Qdiv. }
  rewrite Hx'.
  set (p := inject_Z (2 ^ a)) in *. set (q := inject_Z (2 ^ (b + 1))) in *.
  set (n := inject_Z (Qnum x)) in *. set (d := inject_Z (QDen x)) in *.
  assert (Hdpos : 0 < d).
  { subst d. change 0 with (inject_Z 0). by rewrite <- Zlt_Qlt. }
  assert (Hppos : 0 <= p).
  { subst p. change 0 with (inject_Z 0). rewrite <- Zle_Qle. lia. }
  assert (Hqpos : 0 < q) by lra.
  apply Qle_shift_div_l; [done|].
  unfold Qdiv. rewrite <- Qmult_assoc, (Qmult_comm (/ q)), Qmult_assoc.
  apply Qle_shift_div_r; [done|].
  nra.
Qed.

Lemma roundEven_close (x : Q) :
  Qabs (inject_Z (roundEven x) - x) <= 1 # 2.
Proof.
  unfold roundEven.
  pose proof (Qfloor_le x) as Hlo. pose proof (Qlt_floor x) as Hhi.
  rewrite inject_Z_plus in Hhi. change (inject_Z 1) with 1 in Hhi.
  set (k := Qfloor x) in *.
  apply Qabs_Qle_condition.
  destruct (Qcompare_spec (x - inject_Z k) (1 # 2)) as [Heq | Hlt | Hgt].
  - destruct (Z.even k); rewrite ?inject_Z_plus; change (inject_Z 1) with 1; lra.
  - lra.
  - rewrite inject_Z_plus. change (inject_Z 1) with 1. lra.
Qed.

Lemma roundEven_nonneg (x : Q) : 0 <= x -> (0 <= roundEven x)%Z.
Proof.
  intros Hx. unfold roundEven.
  assert (Hk : (0 <= Qfloor x)%Z).
  { change 0%Z with (Qfloor 0). by apply Qfloor_resp_le. }
  destruct (Qcompare _ _); [destruct (Z.even _)| |]; lia.
Qed.

Lemma ulp_pos (x : Q) : 0 < ulp x.
Proof. apply pow2_pos. Qed.

(** The last place weighs at most 2^-52 of the value, or 2^-1074. *)
Lemma ulp_le (x : Q) : 0 < x -> ulp x <= x * pow2 (-52) + pow2 (-1074).
Proof.
  intros Hx. unfold ulp.
  pose proof (exponent_le x Hx) as He.
  pose proof (pow2_pos (-52)) as H52. pose proof (pow2_pos (-1074)) as Hmin.
  destruct (Z.max_spec (exponent x - 52) (-1074)) as [[_ ->] | [_ ->]].
  - nra.
  - replace (exponent x - 52)%Z with (exponent x + -52)%Z by lia.
    unfold pow2 in *. rewrite Qpower_plus by done. nra.
Qed.

Lemma half_ulp_le (x : Q) :
  0 < x -> ulp x * (1 # 2) <= x * pow2 (-53) + pow2 (-1075).
Proof.
  intros Hx. pose proof (ulp_le x Hx) as Hu.
  assert (H53 : pow2 (-53) == pow2 (-52) * (1 # 2)) by reflexivity.
  assert (Hmin : pow2 (-1075) == pow2 (-1074) * (1 # 2)) by reflexivity.
  rewrite H53, Hmin.
  set (p := pow2 (-52)) in *. set (q := pow2 (-1074)) in *.
  set (u := ulp x) in *. lra.
Qed.

(** The nearest binary64 value is within half a last place. *)
Lemma nearest_close (x : Q) :
  0 < x -> Qabs (nearest x - x) <= ulp x * (1 # 2).
Proof.
  intros Hx. unfold nearest. rewrite Qred_correct.
  pose proof (ulp_pos x) as Hu.
  pose proof (roundEven_close (x / ulp x)) as Hk.
  apply Qabs_Qle_condition in Hk. apply Qabs_Qle_condition.
  set (k := inject_Z (roundEven (x / ulp x))) in *.
  assert (Hx' : x == x / ulp x * ulp x) by (field; lra).
  set (m := x / ulp x) in *. set (u := ulp x) in *.
  destruct Hk as [Hk1 Hk2].
  assert (H1 : (k - m) * u <= (1 # 2) * u) by (apply Qmult_le_compat_r; lra).
  assert (H2 : - (1 # 2) * u <= (k - m) * u) by (apply Qmult_le_compat_r; lra).
  lra.
Qed.

Lemma nearest_nonneg (x : Q) : 0 < x -> 0 <= nearest x.
Proof.
  intros Hx. unfold nearest. rewrite Qred_correct.
  pose proof (ulp_pos x) as Hu.
  assert (Hm : 0 <= x / ulp x) by (apply Qle_shift_div_l; lra).
  apply roundEven_nonneg in Hm. rewrite Zle_Qle in Hm.
  change (inject_Z 0) with 0 in Hm. nra.
Qed.

(** Rounding keeps the sign. *)
Lemma fl_nonneg (x : Q) : 0 <= x -> 0 <= fl x.
Proof.
  intros Hx. unfold fl.
  destruct (Qcompare_spec x 0) as [Heq | Hlt | Hgt]; [done|lra|].
  by apply nearest_nonneg.
Qed.

(** Rounding is accurate to 2^-53 of the value, or to 2^-1075. *)
Lemma fl_close (x : Q) :
  Qabs (fl x - x) <= Qabs x * pow2 (-53) + pow2 (-1075).
Proof.
  pose proof (pow2_pos (-53)) as H53. pose proof (pow2_pos (-1075)) as Hmin.
  unfold fl.
  destruct (Qcompare_spec x 0) as [Heq | Hlt | Hgt].
  - rewrite Heq. apply Qabs_Qle_condition.
    change (Qabs 0) with 0. lra.
  - assert (Hpos : 0 < - x) by lra.
    pose proof (nearest_close (- x) Hpos) as Hn.
    pose proof (half_ulp_le (- x) Hpos) as Hu.
    rewrite (Qabs_neg x) by lra.
    apply Qabs_Qle_condition in Hn. apply Qabs_Qle_condition.
    set (u := ulp (- x)) in *. set (p := pow2 (-53)) in *.
    set (q := pow2 (-1075)) in *. set (y := nearest (- x)) in *. lra.
  - pose proof (nearest_close x Hgt) as Hn.
    pose proof (half_ulp_le x Hgt) as Hu.
    rewrite (Qabs_pos x) by lra.
    apply Qabs_Qle_condition in Hn. apply Qabs_Qle_condition.
    set (u := ulp x) in *. set (p := pow2 (-53)) in *.
    set (q := pow2 (-1075)) in *. set (y := nearest x) in *. lra.
Qed.

Lemma fl_close_nonneg (x : Q) :
  0 <= x ->
  0 <= fl x
  /\ fl x <= x + x * (1 # 9007199254740992) + pow2 (-1075)
  /\ x - x * (1 # 9007199254740992) - pow2 (-1075) <= fl x.
Proof.
  intros Hx. split; [by apply fl_nonneg|].
  pose proof (fl_close x) as Hc. rewrite (Qabs_pos x) in Hc by done.
  apply Qabs_Qle_condition in Hc.
  change (pow2 (-53)) with (/ (9007199254740992 # 1)) in Hc.
  change (/ (9007199254740992 # 1)) with (1 # 9007199254740992) in Hc.
  set (q := pow2 (-1075)) in *. set (y := fl x) in *. lra.
Qed.

Import Binary64Terms.

(** The rounded operations of [Js] against the Standard Library's
    specification of IEEE 754 binary64 arithmetic, on a frame at
    1016.6666666666666 ms after one at 1000 ms, with the smoothed rate at
    30. *)
Example sub_agrees_with_SpecFloat :
  let timestamp := 8942694572578133 # 8796093022208 in
  specSub timestamp 1000 = Some (Js.sub timestamp 1000).
Proof. by vm_compute. Qed.

Example div_agrees_with_SpecFloat :
  let deltaMs := 146601550370133 # 8796093022208 in
  specDiv 1000 deltaMs = Some (Js.div 1000 deltaMs).
Proof. by vm_compute. Qed.

Example mul_agrees_with_SpecFloat :
  let rate := 8444249301319699 # 140737488355328 in
  specMul 30 (literal 0.9) = Some (Js.mul 30 (literal 0.9))
  /\ specMul rate (literal 0.1) = Some (Js.mul rate (literal 0.1)).
Proof. by vm_compute. Qed.

Example add_agrees_with_SpecFloat :
  let rate := 8444249301319699 # 140737488355328 in
  specAdd (Js.mul 30 (literal 0.9)) (Js.mul rate (literal 0.1))
    = Some (Js.add (Js.mul 30 (literal 0.9)) (Js.mul rate (literal 0.1)))
  /\ specAdd (Js.mul 30 (literal 0.9)) (Js.mul rate (literal 0.1))
     = Some (2322168557862913 # 70368744177664).
Proof. by vm_compute. Qed.

(** A rate that repeats itself is not a fixed point of the smoothing: at
    a steady 39 ms the rate is 25.641025641025642, and smoothing it with
    itself stores 25.641025641025646. *)
Example steady_rate_moves :
  let rate := Js.div 1000 39 in
  rate = 3608653547572513 # 140737488355328
  /\ Js.add (Js.mul rate (literal 0.9)) (Js.mul rate (literal 0.1))
     = 7217307095145027 # 281474976710656
  /\ specAdd (Js.mul rate (literal 0.9)) (Js.mul rate (literal 0.1))
     = Some (7217307095145027 # 281474976710656).
Proof. by vm_compute. Qed.

(** The two literals of the smoothing step. *)
Lemma literal_09 : literal 0.9 = 8106479329266893 # 9007199254740992.
Proof. by vm_compute. Qed.

Lemma literal_01 : literal 0.1 = 3602879701896397 # 36028797018963968.
Proof. by vm_compute. Qed.

End Binary64.

(** ** The frame loop controller: starting, stopping, frames *)

Module FrameLoopLaws.

Import Dom PosePrototypeScreen FrameLoopTerms FrameLoopRuns FrameLoop.

(** *** The start sequence *)

(** X11.  Without camera support the start fails fast: the camera is never
    requested and the model never loaded (the run is the same whatever
    they would do), whatever the component still held is cleaned up
    (nothing stopping that cleanup, as when no estimator is held), and the
    screen ends in [error] with the fixed explanation. *)
Theorem start_unsupported (env other : Env) (c : Component) :
  disposes c ->
  CameraWeb.isCameraSupported (navigator env) = false ->
  navigator other = navigator env ->
  startSession other c = startSession env c
  /\ outcome (startSession env c) = Returned tt
  /\ effects (startSession env c)
     = [SetScreenState loading; SetErrorMessage ""]
       ++ (cancelEffects c ++ disposeEffects c ++ releaseEffects c
           ++ detachEffects c ++ clearEffects c)
       ++ [SetErrorMessage unsupportedMessage; SetScreenState error]
  /\ screenState (final (startSession env c)) = error
  /\ errorMessage (final (startSession env c)) = unsupportedMessage.
Proof.
  destruct c as [v cv ct est stop af last fps st msg dfps].
  intros Hdisposes Hunsupported Hnavigator.
  assert (Hrun : forall e, CameraWeb.isCameraSupported (navigator e) = false ->
            startSession e
              (mkComponent v cv ct est stop af last fps st msg dfps)
            = (Returned tt,
               mkComponent
                 (match v with
                  | Some video => if parentNode video then None else Some video
                  | None => None
                  end) cv ct None None None last fps error unsupportedMessage
                 dfps,
               [SetScreenState loading; SetErrorMessage ""]
               ++ (cancelEffects (mkComponent v cv ct est stop af last fps st msg dfps)
                   ++ disposeEffects (mkComponent v cv ct est stop af last fps st msg dfps)
                   ++ releaseEffects (mkComponent v cv ct est stop af last fps st msg dfps)
                   ++ detachEffects (mkComponent v cv ct est stop af last fps st msg dfps)
                   ++ clearEffects (mkComponent v cv ct est stop af last fps st msg dfps))
               ++ [SetErrorMessage unsupportedMessage; SetScreenState error])).
  { intros e He.
    unfold startSession, setScreenState, setErrorMessage. run_unfold.
    rewrite He. cbn -[cleanup]. rewrite cleanup_run by exact Hdisposes.
    cbn -[cancelEffects disposeEffects releaseEffects detachEffects
          clearEffects].
    reflexivity. }
  rewrite (Hrun env Hunsupported).
  rewrite (Hrun other) by (by rewrite Hnavigator).
  by repeat split.
Qed.

Lemma start_unsupported_witness :
  let env :=
    mkEnv None (fun _ => Returned (CameraWeb.mkStream [1%nat]))
          (fun _ => mkVideo 640 480 false)
          (PoseWeb.mkLoader (fun _ => Returned (PoseWeb.VisionFileset 0))
             (fun _ _ => Threw (NonError "not reached")))
          1000 5 in
  let mounted :=
    mkComponent None (Some (mkCanvas 300 150 true)) true None None None
      0 0 idle "" 0 in
  effects (startSession env mounted)
    = [ SetScreenState loading; SetErrorMessage "";
        Draw (ClearRect 0 0 300 150);
        SetErrorMessage unsupportedMessage; SetScreenState error ].
Proof.
  intros env mounted.
  destruct (start_unsupported env env mounted
              ltac:(intros held; discriminate) eq_refl eq_refl)
    as (_ & _ & Heffects & _).
  exact Heffects.
Defined.

(** X12.  When camera acquisition fails, the model is never loaded (the
    run is the same whatever the loader would do), nothing of this
    session needs releasing, and the screen ends in [error] showing the
    message of the camera error; what the component still held is cleaned
    up first (nothing stopping that cleanup, as when no estimator is
    held). *)
Theorem start_camera_rejected (env other : Env) (c : Component)
    (thrown : Thrown) :
  disposes c ->
  CameraWeb.isCameraSupported (navigator env) = true ->
  CameraWeb.startCamera (getUserMedia env) (firstFrame env) sessionCameraConfig
    = Threw thrown ->
  navigator other = navigator env ->
  getUserMedia other = getUserMedia env ->
  firstFrame other = firstFrame env ->
  startSession other c = startSession env c
  /\ outcome (startSession env c) = Returned tt
  /\ effects (startSession env c)
     = [SetScreenState loading; SetErrorMessage ""]
       ++ (cancelEffects c ++ disposeEffects c ++ releaseEffects c
           ++ detachEffects c ++ clearEffects c)
       ++ [SetErrorMessage (shownMessage thrown); SetScreenState error]
  /\ screenState (final (startSession env c)) = error
  /\ errorMessage (final (startSession env c)) = shownMessage thrown.
Proof.
  destruct c as [v cv ct est stop af last fps st msg dfps].
  intros Hdisposes Hsupported Hcamera Hnavigator Hmedia Hframe.
  assert (Hrun : forall e,
            CameraWeb.isCameraSupported (navigator e) = true ->
            CameraWeb.startCamera (getUserMedia e) (firstFrame e)
              sessionCameraConfig = Threw thrown ->
            startSession e
              (mkComponent v cv ct est stop af last fps st msg dfps)
            = (Returned tt,
               mkComponent
                 (match v with
                  | Some video => if parentNode video then None else Some video
                  | None => None
                  end) cv ct None None None last fps error
                 (shownMessage thrown) dfps,
               [SetScreenState loading; SetErrorMessage ""]
               ++ (cancelEffects (mkComponent v cv ct est stop af last fps st msg dfps)
                   ++ disposeEffects (mkComponent v cv ct est stop af last fps st msg dfps)
                   ++ releaseEffects (mkComponent v cv ct est stop af last fps st msg dfps)
                   ++ detachEffects (mkComponent v cv ct est stop af last fps st msg dfps)
                   ++ clearEffects (mkComponent v cv ct est stop af last fps st msg dfps))
               ++ [SetErrorMessage (shownMessage thrown); SetScreenState error])).
  { intros e Hs Hc.
    unfold startSession, setScreenState, setErrorMessage. run_unfold.
    rewrite Hs. cbn [negb]. rewrite Hc. cbn -[cleanup].
    rewrite cleanup_run by exact Hdisposes.
    cbn -[cancelEffects disposeEffects releaseEffects detachEffects
          clearEffects].
    reflexivity. }
  rewrite (Hrun env Hsupported Hcamera).
  rewrite (Hrun other) by (by rewrite ?Hnavigator, ?Hmedia, ?Hframe).
  by repeat split.
Qed.

Lemma start_camera_rejected_witness :
  let env :=
    mkEnv (Some (CameraWeb.mkNavigator (Some (CameraWeb.mkMediaDevices true))))
          (fun _ => Threw (ErrorObject "Permission denied"))
          (fun _ => mkVideo 640 480 false)
          (PoseWeb.mkLoader (fun _ => Returned (PoseWeb.VisionFileset 0))
             (fun _ _ => Threw (NonError "not reached")))
          1000 5 in
  let mounted :=
    mkComponent None (Some (mkCanvas 300 150 true)) true None None None
      0 0 idle "" 0 in
  effects (startSession env mounted)
    = [ SetScreenState loading; SetErrorMessage "";
        Draw (ClearRect 0 0 300 150);
        SetErrorMessage "Permission denied"; SetScreenState error ].
Proof.
  intros env mounted.
  destruct (start_camera_rejected env env mounted
              (ErrorObject "Permission denied")
              ltac:(intros held; discriminate)
              eq_refl eq_refl eq_refl eq_refl eq_refl)
    as (_ & _ & Heffects & _).
  exact Heffects.
Defined.

(** X13.  A start in which every step succeeds ends [running] with the
    camera and a ready estimator held, the first frame requested and the
    clock started; the canvas takes the pixel size of the live video, not
    the requested 640 x 480, and nothing is released or cleaned up. *)
Theorem start_succeeds (env : Env) (c : Component)
    (camera : CameraWeb.CameraStream) (vision : PoseWeb.WasmFileset)
    (engine : PoseWeb.PoseLandmarker) :
  CameraWeb.isCameraSupported (navigator env) = true ->
  CameraWeb.startCamera (getUserMedia env) (firstFrame env) sessionCameraConfig
    = Returned camera ->
  PoseWeb.forVisionTasks (loader env) PoseWeb.WASM_PATH = Returned vision ->
  PoseWeb.createFromOptions (loader env) vision
    (PoseWeb.landmarkerOptions PoseWeb.DEFAULT_CONFIG) = Returned engine ->
  let video := CameraWeb.videoElement camera in
  let r := startSession env c in
  outcome r = Returned tt
  /\ effects r
     = [SetScreenState loading; SetErrorMessage ""]
       ++ (if containerRef c then [InsertVideoBeforeCanvas] else [])
       ++ [SetScreenState running; RequestAnimationFrame (firstHandle env)]
  /\ screenState (final r) = running
  /\ estimatorRef (final r)
     = Some (PoseWeb.mkEstimator (Some engine) PoseWeb.ready
               PoseWeb.DEFAULT_CONFIG)
  /\ stopCameraRef (final r) = Some camera
  /\ animationFrameRef (final r) = Some (firstHandle env)
  /\ lastFrameTimeRef (final r) = now env
  /\ videoRef (final r)
     = Some (mkVideo (videoWidth video) (videoHeight video)
               (containerRef c || parentNode video))
  /\ canvasRef (final r)
     = match canvasRef c with
       | Some canvas =>
           Some (mkCanvas (videoWidth video) (videoHeight video)
                   (context2d canvas))
       | None => None
       end.
Proof.
  destruct c as [v cv ct est stop af last fps st msg dfps].
  intros Hsupported Hcamera Hvision Hcreate video r. subst r.
  pose proof (Estimator.init_success (loader env)
                (PoseWeb.new sessionEstimatorConfig) vision engine
                eq_refl Hvision Hcreate) as Hinit.
  unfold startSession, setScreenState, setErrorMessage, startProcessingLoop,
    invoke.
  run_unfold. rewrite Hsupported. cbn [negb]. rewrite Hcamera, Hinit.
  fold video. destruct video as [vw vh attached] eqn:Hvideo.
  destruct ct, cv as [[cw ch ctx]|], attached; cbn; by repeat split.
Qed.

Lemma start_succeeds_witness :
  let engine :=
    PoseWeb.mkLandmarker 1
      (fun _ _ => Returned (PoseWeb.mkResult (Some []) (Some [])))
      (Returned tt) in
  let env :=
    mkEnv (Some (CameraWeb.mkNavigator (Some (CameraWeb.mkMediaDevices true))))
          (fun _ => Returned (CameraWeb.mkStream [1%nat; 2%nat]))
          (fun _ => mkVideo 1280 720 false)
          (PoseWeb.mkLoader (fun _ => Returned (PoseWeb.VisionFileset 0))
             (fun _ _ => Returned engine))
          1000 5 in
  let mounted :=
    mkComponent None (Some (mkCanvas 300 150 true)) true None None None
      0 0 idle "" 0 in
  canvasRef (final (startSession env mounted)) = Some (mkCanvas 1280 720 true)
  /\ screenState (final (startSession env mounted)) = running.
Proof.
  intros engine env mounted.
  destruct (start_succeeds env mounted
              (CameraWeb.mkCameraStream (mkVideo 1280 720 false)
                 (CameraWeb.mkStream [1%nat; 2%nat]))
              (PoseWeb.VisionFileset 0) engine
              eq_refl eq_refl eq_refl eq_refl)
    as (_ & _ & Hscreen & _ & _ & _ & _ & _ & Hcanvas).
  split; [exact Hcanvas | exact Hscreen].
Defined.

(** *** Cleanup and late frames *)

(** X14.  [cleanup()] releases in a fixed order: it cancels the pending
    frame, then disposes the estimator, then stops the camera, then
    removes the video element, then clears the canvas.  When nothing
    stops it (no estimator is held, or the engine closes without
    throwing) it returns; afterwards the estimator, camera and frame refs
    are null, the canvas ref and the React state are untouched, and the
    video ref is nulled only when the element was attached: a video that
    never reached the page stays referenced.  When the engine of the held
    estimator throws from [close()], [cleanup()] throws the same value at
    that point: the frame is cancelled and [close()] was called, but the
    camera is not stopped, the video stays in the page, the canvas is not
    cleared, and the estimator and camera refs are still set. *)
Theorem cleanup_releases_in_order (c : Component) :
  let r := cleanup c in
  (disposes c ->
   outcome r = Returned tt
   /\ effects r
      = cancelEffects c ++ disposeEffects c ++ releaseEffects c
        ++ detachEffects c ++ clearEffects c
   /\ estimatorRef (final r) = None
   /\ stopCameraRef (final r) = None
   /\ animationFrameRef (final r) = None
   /\ canvasRef (final r) = canvasRef c
   /\ screenState (final r) = screenState c
   /\ errorMessage (final r) = errorMessage c
   /\ (forall video, videoRef c = Some video ->
         videoRef (final r) = if parentNode video then None else Some video))
  /\ (forall estimator engine thrown,
        estimatorRef c = Some estimator ->
        PoseWeb.landmarker estimator = Some engine ->
        PoseWeb.close engine = Threw thrown ->
        outcome r = Threw thrown
        /\ effects r
           = cancelEffects c
             ++ [Engine (PoseWeb.LandmarkerClose (PoseWeb.handle engine))]
        /\ estimatorRef (final r) = Some estimator
        /\ stopCameraRef (final r) = stopCameraRef c
        /\ videoRef (final r) = videoRef c
        /\ animationFrameRef (final r) = None
        /\ screenState (final r) = screenState c).
Proof.
  cbn zeta. split.
  - intros Hdisposes. rewrite cleanup_run by done.
    cbn [outcome final effects fst snd].
    repeat split. intros video Hvideo.
    unfold cleaned. cbn [videoRef]. by rewrite Hvideo.
  - intros estimator engine thrown He Hengine Hclose.
    pose proof (Estimator.dispose_throws estimator engine thrown
                  Hengine Hclose) as Hdispose.
    rewrite (cleanup_throws c estimator thrown He) by (by rewrite Hdispose).
    unfold disposeEffects. rewrite He, Hdispose.
    cbn [outcome final effects fst snd map].
    destruct c as [v cv ct est stop af last fps st msg dfps].
    cbn [estimatorRef] in He. subst est. by repeat split.
Qed.

Lemma cleanup_releases_in_order_witness :
  let detached := mkVideo 640 480 false in
  let camera := CameraWeb.mkCameraStream detached (CameraWeb.mkStream [1%nat]) in
  let c :=
    mkComponent (Some detached) None true None (Some camera) None 0 0 loading
      "" 0 in
  let engine :=
    PoseWeb.mkLandmarker 1
      (fun _ _ => Returned (PoseWeb.mkResult (Some []) (Some [])))
      (Threw (ErrorObject "WebGL context lost")) in
  let estimator :=
    PoseWeb.mkEstimator (Some engine) PoseWeb.ready PoseWeb.DEFAULT_CONFIG in
  let held :=
    mkComponent (Some (mkVideo 640 480 true)) (Some (mkCanvas 640 480 true))
      true (Some estimator) (Some camera) (Some 5%nat) 1000 30 running "" 30 in
  videoRef (final (cleanup c)) = Some detached
  /\ effects (cleanup held)
     = [CancelAnimationFrame 5; Engine (PoseWeb.LandmarkerClose 1)]
  /\ stopCameraRef (final (cleanup held)) = Some camera.
Proof.
  intros detached camera c engine estimator held.
  destruct (cleanup_releases_in_order c) as [Hreturns _].
  destruct (Hreturns ltac:(intros e; discriminate))
    as (_ & _ & _ & _ & _ & _ & _ & _ & Hvideo).
  destruct (cleanup_releases_in_order held) as [_ Hthrows].
  destruct (Hthrows estimator engine (ErrorObject "WebGL context lost")
              eq_refl eq_refl eq_refl)
    as (_ & Heffects & _ & Hcamera & _).
  split; [apply (Hvideo detached eq_refl) | split; [exact Heffects | exact Hcamera]].
Defined.

(** X15.  A frame callback that fires after a [cleanup()] that returned
    does nothing: no detection, no drawing, no new frame request, and no
    error. *)
Theorem frame_after_cleanup (c : Component) (timestamp : number)
    (nextHandle : nat) :
  outcome (cleanup c) = Returned tt ->
  processFrame timestamp nextHandle (final (cleanup c))
    = (Returned tt, final (cleanup c), []).
Proof.
  intros Hreturned%cleanup_returns.
  rewrite cleanup_run by done. cbn [final fst snd]. reflexivity.
Qed.

Lemma frame_after_cleanup_witness :
  let engine :=
    PoseWeb.mkLandmarker 1
      (fun _ _ => Returned (PoseWeb.mkResult (Some []) (Some [])))
      (Returned tt) in
  let estimator :=
    PoseWeb.mkEstimator (Some engine) PoseWeb.ready PoseWeb.DEFAULT_CONFIG in
  let c :=
    mkComponent (Some (mkVideo 640 480 true)) (Some (mkCanvas 640 480 true))
      true (Some estimator) None (Some 5%nat) 1000 30 running "" 0 in
  effects (processFrame 1016 6 (final (cleanup c))) = [].
Proof.
  intros engine estimator c.
  by rewrite (frame_after_cleanup c 1016 6 eq_refl).
Defined.

(** X16.  When the engine throws during a frame, the exception leaves the
    frame callback: nothing is drawn, no further frame is requested, and
    the component is left as it was, still [running] and still holding
    the camera and the estimator. *)
Theorem frame_engine_throws (c : Component) (timestamp : number)
    (nextHandle : nat) (estimator : PoseWeb.MediaPipePoseEstimator)
    (video : HTMLVideoElement) (canvas : HTMLCanvasElement) (thrown : Thrown) :
  estimatorRef c = Some estimator ->
  videoRef c = Some video ->
  canvasRef c = Some canvas ->
  context2d canvas = true ->
  outcome (PoseWeb.detectPose video timestamp estimator) = Threw thrown ->
  processFrame timestamp nextHandle c = (Threw thrown, c, []).
Proof.
  destruct c as [v cv ct est stop af last fps st msg dfps].
  cbn [videoRef canvasRef estimatorRef].
  intros -> -> -> Hctx Hdetect.
  destruct (detectPose_keeps_this video timestamp estimator) as [_ Hlog].
  unfold processFrame, invoke. run_unfold.
  cbn [videoRef canvasRef estimatorRef]. rewrite Hctx. cbn [negb].
  destruct (PoseWeb.detectPose video timestamp estimator)
    as [[detected this'] log].
  cbn in Hdetect, Hlog. by subst detected log.
Qed.

Lemma frame_engine_throws_witness :
  let engine :=
    PoseWeb.mkLandmarker 1 (fun _ _ => Threw (ErrorObject "engine failure"))
      (Returned tt) in
  let estimator :=
    PoseWeb.mkEstimator (Some engine) PoseWeb.ready PoseWeb.DEFAULT_CONFIG in
  let c :=
    mkComponent (Some (mkVideo 640 480 true)) (Some (mkCanvas 640 480 true))
      true (Some estimator) None (Some 5%nat) 1000 30 running "" 0 in
  processFrame 1016 6 c = (Threw (ErrorObject "engine failure"), c, []).
Proof.
  intros engine estimator c.
  apply (frame_engine_throws c 1016 6 estimator (mkVideo 640 480 true)
           (mkCanvas 640 480 true)); reflexivity.
Defined.

(** *** What a frame does *)

(** X17.  A frame that runs to its end first clears the overlay, then only
    draws, and ends by requesting exactly one next frame, whose handle it
    keeps; it records its timestamp and releases nothing: camera,
    estimator, video and canvas refs and the screen state are as before. *)
Theorem frame_draws_and_reschedules (c : Component) (timestamp : number)
    (nextHandle : nat) (estimator : PoseWeb.MediaPipePoseEstimator)
    (video : HTMLVideoElement) (canvas : HTMLCanvasElement)
    (result : option PoseWeb.PoseResult) :
  estimatorRef c = Some estimator ->
  videoRef c = Some video ->
  canvasRef c = Some canvas ->
  context2d canvas = true ->
  outcome (PoseWeb.detectPose video timestamp estimator) = Returned result ->
  let r := processFrame timestamp nextHandle c in
  outcome r = Returned tt
  /\ (exists drawn,
        effects r
          = Draw (ClearRect 0 0 (canvasWidth canvas) (canvasHeight canvas))
            :: map Draw drawn ++ [RequestAnimationFrame nextHandle])
  /\ animationFrameRef (final r) = Some nextHandle
  /\ lastFrameTimeRef (final r) = timestamp
  /\ estimatorRef (final r) = estimatorRef c
  /\ stopCameraRef (final r) = stopCameraRef c
  /\ videoRef (final r) = videoRef c
  /\ canvasRef (final r) = canvasRef c
  /\ screenState (final r) = screenState c.
Proof.
  intros He Hv Hc Hctx Hdetect r. subst r.
  rewrite (processFrame_live c timestamp nextHandle estimator video canvas
             result He Hv Hc Hctx Hdetect).
  cbn [outcome final effects fst snd animationFrameRef lastFrameTimeRef
       estimatorRef stopCameraRef videoRef canvasRef screenState].
  repeat split; try done.
  set (fps := smoothed _ _).
  exists (tl (DrawLandmarks.drawSkeleton (surface canvas)
                (landmarksArgument result) DrawLandmarks.noOverrides)
          ++ DrawLandmarks.drawFPS fps).
  rewrite map_app, <- app_assoc. reflexivity.
Qed.

Lemma frame_draws_and_reschedules_witness :
  let engine :=
    PoseWeb.mkLandmarker 1
      (fun _ _ => Returned (PoseWeb.mkResult (Some []) (Some [])))
      (Returned tt) in
  let estimator :=
    PoseWeb.mkEstimator (Some engine) PoseWeb.ready PoseWeb.DEFAULT_CONFIG in
  let c :=
    mkComponent (Some (mkVideo 640 480 true)) (Some (mkCanvas 640 480 true))
      true (Some estimator) None (Some 5%nat) 1000 30 running "" 0 in
  animationFrameRef (final (processFrame 1016 6 c)) = Some 6%nat.
Proof.
  intros engine estimator c.
  destruct (frame_draws_and_reschedules c 1016 6 estimator
              (mkVideo 640 480 true) (mkCanvas 640 480 true) None
              eq_refl eq_refl eq_refl eq_refl eq_refl)
    as (_ & _ & Hhandle & _).
  exact Hhandle.
Defined.

(** X28.  A frame in which nothing is detected still runs to its end: it
    leaves the overlay cleared, with no dot and no line, draws the FPS
    readout on it and requests the next frame. *)
Theorem frame_without_detection (c : Component) (timestamp : number)
    (nextHandle : nat) (estimator : PoseWeb.MediaPipePoseEstimator)
    (video : HTMLVideoElement) (canvas : HTMLCanvasElement) :
  estimatorRef c = Some estimator ->
  videoRef c = Some video ->
  canvasRef c = Some canvas ->
  context2d canvas = true ->
  outcome (PoseWeb.detectPose video timestamp estimator) = Returned None ->
  effects (processFrame timestamp nextHandle c)
    = Draw (ClearRect 0 0 (canvasWidth canvas) (canvasHeight canvas))
      :: map Draw
           (DrawLandmarks.drawFPS
              (fpsRef (final (processFrame timestamp nextHandle c))))
      ++ [RequestAnimationFrame nextHandle].
Proof.
  intros He Hv Hc Hctx Hdetect.
  by rewrite (processFrame_live c timestamp nextHandle estimator video canvas
                None He Hv Hc Hctx Hdetect).
Qed.

Lemma frame_without_detection_witness :
  let estimator := PoseWeb.new sessionEstimatorConfig in
  let c :=
    mkComponent (Some (mkVideo 640 480 true)) (Some (mkCanvas 640 480 true))
      true (Some estimator) None (Some 5%nat) 1000 30 running "" 0 in
  effects (processFrame 1000 6 c)
    = Draw (ClearRect 0 0 640 480)
      :: map Draw (DrawLandmarks.drawFPS 30) ++ [RequestAnimationFrame 6].
Proof.
  intros estimator c.
  apply (frame_without_detection c 1000 6 estimator (mkVideo 640 480 true)
           (mkCanvas 640 480 true)); reflexivity.
Defined.

(** *** The smoothed frame rate *)

Lemma smoothed_nonneg (previous deltaMs : number) :
  0 <= previous -> 0 <= smoothed previous deltaMs.
Proof.
  intros Hprevious. unfold smoothed.
  destruct (gtb deltaMs 0) eqn:Hpos; [|done].
  apply gtb_gt in Hpos. unfold Js.add, Js.mul, Js.div.
  apply Binary64.fl_nonneg.
  assert (H9 : 0 <= fl (previous * literal 0.9)).
  { apply Binary64.fl_nonneg, Qmult_le_0_compat; [done|].
    by apply Binary64.fl_nonneg. }
  assert (H1 : 0 <= fl (fl (1000 / deltaMs) * literal 0.1)).
  { apply Binary64.fl_nonneg, Qmult_le_0_compat.
    - apply Binary64.fl_nonneg, Qle_shift_div_l; lra.
    - by apply Binary64.fl_nonneg. }
  lra.
Qed.

Lemma frame_keeps_nonneg (c : Component) (timestamp : number)
    (nextHandle : nat) :
  0 <= fpsRef c -> 0 <= fpsRef (final (processFrame timestamp nextHandle c)).
Proof.
  intros Hnonneg.
  destruct (processFrame_fps_kept c timestamp nextHandle)
    as [(estimator & video & canvas & result & He & Hv & Hc & Hctx & Hd)
       | ->]; [|done].
  rewrite (processFrame_live c timestamp nextHandle estimator video canvas
             result) by done.
  cbn [final fst snd fpsRef]. by apply smoothed_nonneg.
Qed.

(** X18.  The smoothed rate never turns negative: from a non-negative
    value, any sequence of frame callbacks leaves it non-negative,
    whatever their timestamps (going backwards included) and whether
    they run to their end, bail out or throw. *)
Theorem fps_never_negative (c : Component) (frames : list (number * nat)) :
  0 <= fpsRef c -> 0 <= fpsRef (runFrames frames c).
Proof.
  revert c. induction frames as [|[timestamp nextHandle] frames IH];
    intros c Hnonneg; [done|].
  cbn [runFrames]. by apply IH, frame_keeps_nonneg.
Qed.

Lemma fps_never_negative_witness :
  let engine :=
    PoseWeb.mkLandmarker 1
      (fun _ _ => Returned (PoseWeb.mkResult (Some []) (Some [])))
      (Returned tt) in
  let estimator :=
    PoseWeb.mkEstimator (Some engine) PoseWeb.ready PoseWeb.DEFAULT_CONFIG in
  let c :=
    mkComponent (Some (mkVideo 640 480 true)) (Some (mkCanvas 640 480 true))
      true (Some estimator) None (Some 5%nat) 1000 0 running "" 0 in
  0 <= fpsRef (runFrames [(1020, 6%nat); (1010, 7%nat); (1043, 8%nat)] c).
Proof.
  intros engine estimator c.
  apply (fps_never_negative c). by vm_compute.
Defined.

(** One smoothing step, against the exact value of the law. *)
Lemma smoothing_close (S r rate : Q) :
  0 <= S -> 0 <= rate -> r = fl rate ->
  Qabs (Js.add (Js.mul S (literal 0.9)) (Js.mul r (literal 0.1))
        - (0.9 * S + 0.1 * rate))
    <= (0.9 * S + 0.1 * rate) * pow2 (-50) + pow2 (-1072).
Proof.
  intros HS Hrate ->. rewrite Binary64.literal_09, Binary64.literal_01.
  unfold Js.add, Js.mul.
  set (c9 := 8106479329266893 # 9007199254740992).
  set (c1 := 3602879701896397 # 36028797018963968).
  destruct (Binary64.fl_close_nonneg rate Hrate) as (Hr0 & Hr1 & Hr2).
  set (r := fl rate) in *.
  assert (Hsc : 0 <= S * c9)
    by (apply Qmult_le_0_compat; [done | by vm_compute]).
  assert (Hrc : 0 <= r * c1)
    by (apply Qmult_le_0_compat; [done | by vm_compute]).
  destruct (Binary64.fl_close_nonneg (S * c9) Hsc) as (Hp0 & Hp1 & Hp2).
  destruct (Binary64.fl_close_nonneg (r * c1) Hrc) as (Hq0 & Hq1 & Hq2).
  set (p := fl (S * c9)) in *. set (q := fl (r * c1)) in *.
  assert (Hpq : 0 <= p + q) by lra.
  destruct (Binary64.fl_close_nonneg (p + q) Hpq) as (Hs0 & Hs1 & Hs2).
  set (s := fl (p + q)) in *.
  assert (Hmin : pow2 (-1072) == 8 * pow2 (-1075)) by reflexivity.
  pose proof (Binary64.pow2_pos (-1075)) as Hpos.
  change (pow2 (-50)) with (/ (1125899906842624 # 1)).
  change (/ (1125899906842624 # 1)) with (1 # 1125899906842624).
  rewrite Hmin. set (eta := pow2 (-1075)) in *.
  subst c9 c1.
  apply Qabs_Qle_condition. split; lra.
Qed.

(** X19.  The stored rate is the value of the smoothing law up to
    rounding: on a frame that runs to its end with a positive delta, from
    a non-negative previous rate S and with no step overflowing, it
    differs from the exact 0.9 * S + 0.1 * (1000 / deltaMs) by at most
    2^-50 of that value (plus 2^-1072, which matters for denormal rates
    only). *)
Theorem fps_smoothing_accurate (c : Component) (timestamp : number)
    (nextHandle : nat) :
  let S := fpsRef c in
  let deltaMs := Js.sub timestamp (lastFrameTimeRef c) in
  let S' := fpsRef (final (processFrame timestamp nextHandle c)) in
  let exact := 0.9 * S + 0.1 * (1000 / deltaMs) in
  frameRuns c timestamp -> 0 < deltaMs -> 0 <= S ->
  inRange S -> inRange deltaMs -> inRange (Js.div 1000 deltaMs) ->
  Qabs (S' - exact) <= exact * pow2 (-50) + pow2 (-1072).
Proof.
  intros S deltaMs S' exact
    (estimator & video & canvas & result & He & Hv & Hc & Hctx & Hd)
    Hpos HS _ _ _.
  subst S' exact.
  rewrite (processFrame_live c timestamp nextHandle estimator video canvas
             result) by done.
  cbn [final fst snd fpsRef]. unfold smoothed. fold deltaMs S.
  rewrite (proj2 (gtb_gt deltaMs 0) Hpos).
  apply smoothing_close; [done| |done].
  apply Qle_shift_div_l; lra.
Qed.

(** A frame at 1016.6666666666666 ms after one at 1000 ms, with the
    smoothed rate at 30: the stored 33.000000000000014 is within 2^-50 of
    the exact value of the law. *)
Lemma fps_smoothing_accurate_witness :
  let engine :=
    PoseWeb.mkLandmarker 1
      (fun _ _ => Returned (PoseWeb.mkResult (Some []) (Some [])))
      (Returned tt) in
  let estimator :=
    PoseWeb.mkEstimator (Some engine) PoseWeb.ready PoseWeb.DEFAULT_CONFIG in
  let c :=
    mkComponent (Some (mkVideo 640 480 true)) (Some (mkCanvas 640 480 true))
      true (Some estimator) None (Some 5%nat) 1000 30 running "" 0 in
  let timestamp := 8942694572578133 # 8796093022208 in
  let exact := 0.9 * 30 + 0.1 * (1000 / Js.sub timestamp 1000) in
  Qabs (fpsRef (final (processFrame timestamp 6 c)) - exact)
    <= exact * pow2 (-50) + pow2 (-1072).
Proof.
  intros engine estimator c timestamp exact.
  apply (fps_smoothing_accurate c timestamp 6).
  - exists estimator, (mkVideo 640 480 true), (mkCanvas 640 480 true), None.
    repeat split; reflexivity.
  - by vm_compute.
  - by vm_compute.
  - by vm_compute.
  - by vm_compute.
  - by vm_compute.
Defined.

(** *** The stats panel *)



End FrameLoopLaws.

(** ** The auth store *)

Module AuthStoreLaws.

Import AuthStore AppIndex.

Ltac store_unfold :=
  unfold signUp, signIn, signOut, resetPassword; run_unfold.

(** X24.  A sign-in or sign-up whose service call resolves returns the
    [success] flag of the result and ends the loading state; the error is
    cleared on success and set, on failure, to the message of the result
    or to the fallback text when the result carries none; the stored
    session is not touched, and the service is called once, with the
    credentials given. *)
Theorem attempt_resolved (service : AuthService) (email password : string)
    (result : AuthResult) (st : AuthState) :
  (serviceSignIn service email password = Returned result ->
     signIn service email password st
       = (Returned (success result),
          mkAuthState (session st) false
            (if success result then None
             else Some (errorText result "Sign in failed")),
          [SignInCall email password]))
  /\ (serviceSignUp service email password = Returned result ->
      signUp service email password st
        = (Returned (success result),
           mkAuthState (session st) false
             (if success result then None
              else Some (errorText result "Sign up failed")),
           [SignUpCall email password])).
Proof.
  split; intros Hcall; store_unfold; rewrite Hcall;
    by destruct (success result).
Qed.

Lemma attempt_resolved_witness :
  let service :=
    mkAuthService
      (fun _ _ => Returned (mkAuthResult false None None))
      (fun _ _ => Returned (mkAuthResult false None
                              (Some (mkAuthError "401" "Invalid credentials"))))
      (Returned tt) (fun _ => Returned tt) in
  error (final (signIn service "test@example.com" "wrong" initialState))
    = Some "Invalid credentials"
  /\ error (final (signUp service "new@example.com" "password" initialState))
     = Some "Sign up failed".
Proof.
  intros service.
  destruct (attempt_resolved service "test@example.com" "wrong"
              (mkAuthResult false None
                 (Some (mkAuthError "401" "Invalid credentials"))) initialState)
    as [Hin _].
  destruct (attempt_resolved service "new@example.com" "password"
              (mkAuthResult false None None) initialState)
    as [_ Hup].
  rewrite (Hin eq_refl), (Hup eq_refl). split; reflexivity.
Defined.

(** X25.  A sign-in, sign-up or sign-out whose service call rejects lets
    the rejection through and leaves the store loading, so the app keeps
    showing the loading indicator, whatever view was selected. *)
Theorem rejected_call_keeps_loading (service : AuthService)
    (email password : string) (thrown : Thrown) (st : AuthState)
    (authView : AuthView) (appView : AppView) :
  (serviceSignIn service email password = Threw thrown ->
     outcome (signIn service email password st) = Threw thrown
     /\ Index (final (signIn service email password st)) authView appView
        = LoadingIndicator)
  /\ (serviceSignUp service email password = Threw thrown ->
      outcome (signUp service email password st) = Threw thrown
      /\ Index (final (signUp service email password st)) authView appView
         = LoadingIndicator)
  /\ (serviceSignOut service = Threw thrown ->
      outcome (signOut service st) = Threw thrown
      /\ session (final (signOut service st)) = session st
      /\ Index (final (signOut service st)) authView appView
         = LoadingIndicator).
Proof.
  split; [|split]; intros Hcall; store_unfold; by rewrite Hcall.
Qed.

Lemma rejected_call_keeps_loading_witness :
  let service :=
    mkAuthService
      (fun _ _ => Threw (ErrorObject "Network request failed"))
      (fun _ _ => Threw (ErrorObject "Network request failed"))
      (Threw (ErrorObject "Network request failed"))
      (fun _ => Threw (ErrorObject "Network request failed")) in
  let signedOut := mkAuthState None false None in
  Index (final (signIn service "test@example.com" "password" signedOut))
    login home = LoadingIndicator.
Proof.
  intros service signedOut.
  destruct (rejected_call_keeps_loading service "test@example.com" "password"
              (ErrorObject "Network request failed") signedOut login home)
    as [Hin _].
  apply (Hin eq_refl).
Defined.

(** X26.  [resetPassword] never throws and always ends the loading state:
    it returns true with the error cleared when the service call
    resolves, and false with the message of the rejection (or the
    fallback text for a value that is not an Error) when it rejects; the
    stored session is not touched. *)
Theorem resetPassword_total (service : AuthService) (email : string)
    (st : AuthState) :
  let r := resetPassword service email st in
  isLoading (final r) = false
  /\ session (final r) = session st
  /\ effects r = [ResetPasswordCall email]
  /\ match serviceResetPassword service email with
     | Returned _ => outcome r = Returned true /\ error (final r) = None
     | Threw (ErrorObject text) =>
         outcome r = Returned false /\ error (final r) = Some text
     | Threw (NonError _) =>
         outcome r = Returned false /\ error (final r) = Some "Reset failed"
     end.
Proof.
  store_unfold.
  by destruct (serviceResetPassword service email) as [[]|[text|other]].
Qed.

(** X27.  A sign-out whose service call resolves clears the session and
    ends the loading state, keeping the error text; the app then renders
    one of the auth screens, never the home or the pose screen. *)
Theorem signOut_resolved (service : AuthService) (st : AuthState)
    (authView : AuthView) (appView : AppView) :
  serviceSignOut service = Returned tt ->
  signOut service st
    = (Returned tt, mkAuthState None false (error st), [SignOutCall])
  /\ Index (final (signOut service st)) authView appView
     = match authView with
       | signup => SignUpScreen
       | reset => ResetPasswordScreen
       | login => LoginScreen
       end.
Proof.
  intros Hcall. store_unfold. by rewrite Hcall.
Qed.

Lemma signOut_resolved_witness :
  let service :=
    mkAuthService (fun _ _ => Threw (NonError "unused"))
      (fun _ _ => Threw (NonError "unused")) (Returned tt)
      (fun _ => Returned tt) in
  let signedIn :=
    mkAuthState (Some (mkAuthSession "123" "test@example.com" "token"
                         "refresh" 9999999999)) false None in
  Index (final (signOut service signedIn)) login posePrototype = LoginScreen.
Proof.
  intros service signedIn.
  destruct (signOut_resolved service signedIn login posePrototype eq_refl)
    as [_ Hscreen].
  exact Hscreen.
Defined.

End AuthStoreLaws.
